(** * Adventar gRPC service: a relational model of [grpc-server/service.go]

    The service is a thin layer of SQL statements over three tables
    ([users], [calendars], [entries]) plus two collaborators held by
    the [Service] struct (the identity verifier and the link metadata
    fetcher).  This development embeds the handlers as functions in a
    state-and-error monad over a relational store, one definition per
    Go function and one definition per SQL text, and states the
    properties of the handlers against that embedding. *)

From stdpp Require Import base decidable option list sorting gmap strings.
From Stdlib Require Import ZArith.

Local Open Scope Z_scope.

(** ** Go values *)

(** Conversion of an integer to [int32] (two's complement wrap-around). *)
Definition int32 (z : Z) : Z := (z + 2147483648) `mod` 4294967296 - 2147483648.

Definition max_int32 : Z := 2147483647.
Definition min_int32 : Z := -2147483648.

(** Errors the handlers can return.  [ErrNoRows] is [sql.ErrNoRows];
    [ErrDriver] stands for any other error produced by [database/sql];
    the remaining ones are the [fmt.Errorf] values of the source and the
    error of the metadata fetcher. *)
Inductive error : Type :=
  | ErrNoRows
  | ErrDriver
  | ErrNoMetadata
  | ErrNoAuthorization
  | ErrInvalidDay (day : Z)
  | ErrFetch (msg : string).

(** The three ways a Go call ends: a value, an [error], or a run-time
    panic (here always a nil pointer dereference). *)
Inductive outcome (A : Type) : Type :=
  | Ok (a : A)
  | Err (e : error)
  | Panic.
Arguments Ok {A} a.
Arguments Err {A} e.
Arguments Panic {A}.

(** ** The relational store *)

Record users_row := UsersRow {
  u_id : Z;
  u_name : string;
  u_auth_uid : string;
  u_auth_provider : string;
  u_icon_url : string
}.

Record calendars_row := CalendarsRow {
  c_id : Z;
  c_user_id : Z;
  c_title : string;
  c_description : string;
  c_year : Z
}.

Record entries_row := EntriesRow {
  e_id : Z;
  e_user_id : Z;
  e_calendar_id : Z;
  e_day : Z;
  e_comment : string;
  e_url : string;
  e_title : string;
  e_image_url : string
}.

Global Instance users_row_eq_dec : EqDecision users_row.
Proof. solve_decision. Defined.

Global Instance calendars_row_eq_dec : EqDecision calendars_row.
Proof. solve_decision. Defined.

Global Instance entries_row_eq_dec : EqDecision entries_row.
Proof. solve_decision. Defined.

(** Tables are kept in storage order; the [*_seq] fields are the
    AUTO_INCREMENT counters that [LastInsertId] reports. *)
Record database := Database {
  users : list users_row;
  calendars : list calendars_row;
  entries : list entries_row;
  users_seq : Z;
  calendars_seq : Z;
  entries_seq : Z
}.

(** The state a handler runs in: the store behind [s.db] and the
    schedule of driver failures.  Every round trip to the database
    consumes one flag; [true] makes that call return [ErrDriver]. *)
Record world := World {
  w_db : database;
  w_faults : list bool
}.

(** ** The handler monad *)

Definition M (A : Type) : Type := world → outcome A * world.

Global Instance M_ret : MRet M := λ A a w, (Ok a, w).

Global Instance M_bind : MBind M := λ A B f m w,
  match m w with
  | (Ok a, w') => f a w'
  | (Err e, w') => (Err e, w')
  | (Panic, w') => (Panic, w')
  end.

Definition fail {A} (e : error) : M A := λ w, (Err e, w).
Definition panic {A} : M A := λ w, (Panic, w).

(** [v, err := f()] : the Go pair of a possibly nil result and a
    possibly nil error, without leaving the function. *)
Definition go_call {A} (m : M A) : M (option A * option error) := λ w,
  match m w with
  | (Ok a, w') => (Ok (Some a, None), w')
  | (Err e, w') => (Ok (None, Some e), w')
  | (Panic, w') => (Panic, w')
  end.

(** [p.f] on a pointer: panics when [p] is nil. *)
Definition deref {A} (p : option A) : M A :=
  match p with
  | Some a => mret a
  | None => panic
  end.

(** [defer d; body] : [d] runs when [body] has finished, whatever its
    outcome; a panic in [d] replaces the outcome of [body]. *)
Definition defer {A} (d : M unit) (body : M A) : M A := λ w,
  match body w with
  | (r, w') =>
      match d w' with
      | (Panic, w'') => (Panic, w'')
      | (_, w'') => (r, w'')
      end
  end.

(** ** database/sql *)

Definition round_trip : M unit := λ w,
  match w_faults w with
  | true :: fs => (Err ErrDriver, World (w_db w) fs)
  | false :: fs => (Ok (), World (w_db w) fs)
  | [] => (Ok (), w)
  end.

Definition get_db : M database := λ w, (Ok (w_db w), w).
Definition put_db (d : database) : M unit := λ w, (Ok (), World d (w_faults w)).

(** [db.Query]: the rows of a select; a statement the server rejects
    ([None]) is reported as a driver error. *)
Definition Query {R} (q : database → option (list R)) : M (list R) :=
  round_trip;; d ← get_db;
  match q d with
  | Some rows => mret rows
  | None => fail ErrDriver
  end.

(** [db.QueryRow(...).Scan(...)]: the first row, or [sql.ErrNoRows]. *)
Definition QueryRow {R} (q : database → list R) : M R :=
  round_trip;; d ← get_db;
  match q d with
  | r :: _ => mret r
  | [] => fail ErrNoRows
  end.

Record sql_Result := SqlResult {
  LastInsertId : Z;
  RowsAffected : Z
}.

(** [db.Prepare]: the prepared statement is the statement itself. *)
Definition Prepare {S} (stmt : S) : M S := round_trip;; mret stmt.

(** [stmt.Exec(args...)]. *)
Definition Exec (run : database → database * sql_Result) : M sql_Result :=
  round_trip;; d ← get_db;
  let '(d', res) := run d in
  put_db d';; mret res.

(** [stmt.Close()] on a statement that was prepared. *)
Definition stmt_Close {S} (stmt : S) : M unit := mret ().

(** [rows.Close()]: the receiver is dereferenced, so a nil [*sql.Rows]
    panics. *)
Definition rows_Close {R} (rows : option (list R)) : M unit :=
  _ ← deref rows; mret ().

(** [for rows.Next() { ... }]: the loop body threads the variables it
    assigns and may return early with an error. *)
Fixpoint for_rows {R A} (rows : list R) (acc : A) (body : A → R → M A) : M A :=
  match rows with
  | [] => mret acc
  | r :: rows' => acc' ← body acc r; for_rows rows' acc' body
  end.

(** [rows.Scan] of an integer column into an [*int32]: a value out of
    range is a conversion error. *)
Definition scan_int32 (z : Z) : M Z :=
  if decide (min_int32 ≤ z ≤ max_int32) then mret z else fail ErrDriver.

Global Instance error_eq_dec : EqDecision error.
Proof. solve_decision. Defined.

(** ** Types declared outside [service.go] *)

(** Modelled from the spec: [AuthResult], [SiteMeta], [user] and
    [calendar] are structs of the package whose declarations are not
    part of the sources at hand; their fields are the ones the handlers
    read and scan into. *)
Record AuthResult := MkAuthResult {
  AuthProvider : string;
  AuthUID : string;
  Name : string;
  IconURL : string
}.

Record SiteMeta := MkSiteMeta {
  Title : string;
  ImageURL : string
}.

Record user := MkUser {
  user_ID : Z;
  user_Name : string;
  user_IconURL : string
}.

Record calendar := MkCalendar {
  calendar_ID : Z;
  calendar_UserID : Z;
  calendar_Title : string;
  calendar_Description : string;
  calendar_Year : Z
}.

(** Modelled from the spec: the generated protobuf messages of
    [adventar/v1], with the fields the handlers set.  A message pointer
    field is an [option]; a fresh message has every field at its zero
    value. *)
Module pb.
Record User := MkUser {
  User_Id : Z;
  User_Name : string;
  User_IconUrl : string
}.

Record Calendar := MkCalendar {
  Calendar_Id : Z;
  Calendar_Owner : option User;
  Calendar_Title : string;
  Calendar_Description : string;
  Calendar_Year : Z;
  Calendar_EntryCount : Z
}.

Record Entry := MkEntry {
  Entry_Id : Z;
  Entry_Owner : option User;
  Entry_Calendar : option Calendar;
  Entry_Day : Z;
  Entry_Title : string;
  Entry_Comment : string;
  Entry_Url : string;
  Entry_ImageUrl : string
}.

Record ListCalendarsRequest := MkListCalendarsRequest {
  ListCalendarsRequest_Year : Z;
  ListCalendarsRequest_UserId : Z;
  ListCalendarsRequest_Query : string;
  ListCalendarsRequest_PageSize : Z
}.

Record ListCalendarsResponse := MkListCalendarsResponse {
  ListCalendarsResponse_Calendars : list Calendar
}.

Record GetCalendarRequest := MkGetCalendarRequest {
  GetCalendarRequest_CalendarId : Z
}.

Record GetCalendarResponse := MkGetCalendarResponse {
  GetCalendarResponse_Calendar : option Calendar;
  GetCalendarResponse_Entries : list Entry
}.

Record UpdateCalendarRequest := MkUpdateCalendarRequest {
  UpdateCalendarRequest_CalendarId : Z;
  UpdateCalendarRequest_Title : string;
  UpdateCalendarRequest_Description : string
}.

Record DeleteCalendarRequest := MkDeleteCalendarRequest {
  DeleteCalendarRequest_CalendarId : Z
}.

Record ListEntriesRequest := MkListEntriesRequest {
  ListEntriesRequest_UserId : Z;
  ListEntriesRequest_Year : Z
}.

Record ListEntriesResponse := MkListEntriesResponse {
  ListEntriesResponse_Entries : list Entry
}.

Record CreateEntryRequest := MkCreateEntryRequest {
  CreateEntryRequest_CalendarId : Z;
  CreateEntryRequest_Day : Z
}.

Record UpdateEntryRequest := MkUpdateEntryRequest {
  UpdateEntryRequest_EntryId : Z;
  UpdateEntryRequest_Comment : string;
  UpdateEntryRequest_Url : string
}.

Record DeleteEntryRequest := MkDeleteEntryRequest {
  DeleteEntryRequest_EntryId : Z
}.

Record SignInRequest := MkSignInRequest {
  SignInRequest_Jwt : string
}.

Record CreateCalendarRequest := MkCreateCalendarRequest {
  CreateCalendarRequest_Title : string;
  CreateCalendarRequest_Description : string
}.

(** [empty.Empty] *)
Inductive Empty := MkEmpty.
End pb.

(** The incoming context of an RPC: [metadata.FromIncomingContext]
    yields the metadata map when there is one. *)
Record Context := MkContext {
  FromIncomingContext : option (gmap string (list string))
}.

(** [md[key]]: a missing key reads as the nil slice. *)
Definition md_get (md : gmap string (list string)) (key : string) : list string :=
  default [] (md !! key).

(** ** The service and its collaborators *)

(** [VerifyIDToken(string)] returns an [AuthResult] pointer, which
    may be nil. *)
Record verifier := MkVerifier {
  VerifyIDToken : string → option AuthResult
}.

(** [Fetch(string)] returns a [SiteMeta] pointer or an error. *)
Record metaFetcher := MkMetaFetcher {
  Fetch : string → SiteMeta + error
}.

(** [Service]; the [db] field is the store of the [world]. *)
Record Service := MkService {
  s_verifier : verifier;
  s_metaFetcher : metaFetcher
}.

(** ** The SQL statements of the service

    Each statement is the relation it denotes on the store.  Columns
    are compared by equality; a join lists, for every row of the left
    table, the matching rows of the right one; [order by] is a sort of
    the selected rows. *)

(** [where auth_provider = ? and auth_uid = ?] *)
Definition has_identity (provider uid : string) (r : users_row) : Prop :=
  u_auth_provider r = provider ∧ u_auth_uid r = uid.

Global Instance has_identity_dec provider uid r : Decision (has_identity provider uid r).
Proof. unfold has_identity. apply _. Defined.

(** [select id, name, icon_url from users
     where auth_provider = ? and auth_uid = ?] *)
Definition sql_select_user_by_auth (provider uid : string) (d : database) : list user :=
  (λ r, MkUser (u_id r) (u_name r) (u_icon_url r)) <$>
  filter (has_identity provider uid) (users d).

(** [select id from users where auth_provider = ? and auth_uid = ?] *)
Definition sql_select_user_id_by_auth (provider uid : string) (d : database) : list Z :=
  u_id <$> filter (has_identity provider uid) (users d).

(** [insert into users (name, auth_uid, auth_provider, icon_url)
     values (?, ?, ?, ?)] *)
Definition sql_insert_user (name uid provider icon : string) (d : database)
  : database * sql_Result :=
  let id := users_seq d in
  (Database (users d ++ [UsersRow id name uid provider icon]) (calendars d) (entries d)
            (id + 1) (calendars_seq d) (entries_seq d),
   SqlResult id 1).

(** [set icon_url = ? where id = ?] on one row. *)
Definition with_icon (icon : string) (id : Z) (r : users_row) : users_row :=
  if decide (u_id r = id)
  then UsersRow (u_id r) (u_name r) (u_auth_uid r) (u_auth_provider r) icon
  else r.

(** [update users set icon_url = ? where id = ?] *)
Definition sql_update_user_icon (icon : string) (id : Z) (d : database)
  : database * sql_Result :=
  (Database (with_icon icon id <$> users d)
            (calendars d) (entries d) (users_seq d) (calendars_seq d) (entries_seq d),
   SqlResult 0 (Z.of_nat (length (filter (λ r, u_id r = id) (users d))))).

(** [select id, user_id, title, description, year from calendars
     where id = ?] *)
Definition sql_select_calendar (id : Z) (d : database) : list calendar :=
  (λ r, MkCalendar (c_id r) (c_user_id r) (c_title r) (c_description r) (c_year r)) <$>
  filter (λ r, c_id r = id) (calendars d).

(** [update calendars set title = ?, description = ?
     where id = ? and user_id = ?] *)
Definition sql_update_calendar (title description : string) (id uid : Z) (d : database)
  : database * sql_Result :=
  (Database (users d)
            ((λ r, if decide (c_id r = id ∧ c_user_id r = uid)
                   then CalendarsRow (c_id r) (c_user_id r) title description (c_year r)
                   else r) <$> calendars d)
            (entries d) (users_seq d) (calendars_seq d) (entries_seq d),
   SqlResult 0 (Z.of_nat (length (filter (λ r, c_id r = id ∧ c_user_id r = uid) (calendars d))))).

(** [delete from calendars where id = ? and user_id = ?] *)
Definition sql_delete_calendar (id uid : Z) (d : database) : database * sql_Result :=
  (Database (users d)
            (filter (λ r, ¬ (c_id r = id ∧ c_user_id r = uid)) (calendars d))
            (entries d) (users_seq d) (calendars_seq d) (entries_seq d),
   SqlResult 0 (Z.of_nat (length (filter (λ r, c_id r = id ∧ c_user_id r = uid) (calendars d))))).

(** [select year from calendars where id = ?] *)
Definition sql_select_calendar_year (id : Z) (d : database) : list Z :=
  c_year <$> filter (λ r, c_id r = id) (calendars d).

(** [select id from calendars where id = ?] *)
Definition sql_select_calendar_id (id : Z) (d : database) : list Z :=
  c_id <$> filter (λ r, c_id r = id) (calendars d).

(** [insert into entries(user_id, calendar_id, day, comment, url,
     title, image_url) values(?, ?, ?, '', '', '', '')] *)
Definition sql_insert_entry (uid cid day : Z) (d : database) : database * sql_Result :=
  let id := entries_seq d in
  (Database (users d) (calendars d)
            (entries d ++ [EntriesRow id uid cid day "" "" "" ""])
            (users_seq d) (calendars_seq d) (id + 1),
   SqlResult id 1).

(** [update entries set comment = ?, url = ? where id = ? and user_id = ?] *)
Definition sql_update_entry (comment url : string) (id uid : Z) (d : database)
  : database * sql_Result :=
  (Database (users d) (calendars d)
            ((λ r, if decide (e_id r = id ∧ e_user_id r = uid)
                   then EntriesRow (e_id r) (e_user_id r) (e_calendar_id r) (e_day r)
                                   comment url (e_title r) (e_image_url r)
                   else r) <$> entries d)
            (users_seq d) (calendars_seq d) (entries_seq d),
   SqlResult 0 (Z.of_nat (length (filter (λ r, e_id r = id ∧ e_user_id r = uid) (entries d))))).

(** [update entries set title = ?, image_url = ?
     where id = ? and user_id = ?] *)
Definition sql_update_entry_meta (title image : string) (id uid : Z) (d : database)
  : database * sql_Result :=
  (Database (users d) (calendars d)
            ((λ r, if decide (e_id r = id ∧ e_user_id r = uid)
                   then EntriesRow (e_id r) (e_user_id r) (e_calendar_id r) (e_day r)
                                   (e_comment r) (e_url r) title image
                   else r) <$> entries d)
            (users_seq d) (calendars_seq d) (entries_seq d),
   SqlResult 0 (Z.of_nat (length (filter (λ r, e_id r = id ∧ e_user_id r = uid) (entries d))))).

(** [select comment, url, title, image_url from entries where id = ?] *)
Definition sql_select_entry (id : Z) (d : database) : list (string * string * string * string) :=
  (λ r, (e_comment r, e_url r, e_title r, e_image_url r)) <$>
  filter (λ r, e_id r = id) (entries d).

(** [delete from entries where id = ? and user_id = ?] *)
Definition sql_delete_entry (id uid : Z) (d : database) : database * sql_Result :=
  (Database (users d) (calendars d)
            (filter (λ r, ¬ (e_id r = id ∧ e_user_id r = uid)) (entries d))
            (users_seq d) (calendars_seq d) (entries_seq d),
   SqlResult 0 (Z.of_nat (length (filter (λ r, e_id r = id ∧ e_user_id r = uid) (entries d))))).

(** [... inner join users as u on u.id = x.user_id]: the user rows
    joined to a row whose [user_id] is [uid]. *)
Definition join_user (uid : Z) (d : database) : list users_row :=
  filter (λ u, u_id u = uid) (users d).

(** [... inner join calendars as c on c.id = e.calendar_id] *)
Definition join_calendar (cid : Z) (d : database) : list calendars_row :=
  filter (λ c, c_id c = cid) (calendars d).

(** The condition fragments [ListEntries] joins with [" and "], each
    with the value bound to its placeholder. *)
Inductive entries_condition : Type :=
  | e_user_id_eq (user_id : Z)    (* "e.user_id = ?" *)
  | ec_year_eq (year : Z).        (* "c.year = ?" *)

Definition entries_condition_holds (e : entries_row) (c : calendars_row)
    (q : entries_condition) : Prop :=
  match q with
  | e_user_id_eq uid => e_user_id e = uid
  | ec_year_eq y => c_year c = y
  end.

Global Instance entries_condition_holds_dec e c q :
  Decision (entries_condition_holds e c q).
Proof. destruct q; simpl; apply _. Defined.

(** Ascending [order by e.day]. *)
Definition by_day {X} (day : X → Z) : relation X := λ x y, day x ≤ day y.

Global Instance by_day_dec {X} (day : X → Z) x y : Decision (by_day day x y).
Proof. unfold by_day. apply _. Defined.

Global Instance by_day_total {X} (day : X → Z) : Total (by_day day).
Proof. intros x y. unfold by_day. lia. Qed.

(** [select e.id, e.day, e.title, e.comment, e.url, e.image_url,
            c.id, c.title, c.description, u.id, u.name, u.icon_url
     from entries as e
     inner join users as u on u.id = e.user_id
     inner join calendars as c on c.id = e.calendar_id
     where <conditions> order by e.day] *)
Definition sql_list_entries (conditions : list entries_condition) (d : database)
  : option (list (entries_row * calendars_row * users_row)) :=
  let joined :=
    e ← entries d; u ← join_user (e_user_id e) d; c ← join_calendar (e_calendar_id e) d;
    [(e, c, u)] in
  Some (merge_sort (by_day (λ r, e_day r.1.1))
          (filter (λ r, Forall (entries_condition_holds r.1.1 r.1.2) conditions) joined)).

(** [select e.id, e.day, e.title, e.comment, e.url, e.image_url,
            u.id, u.name, u.icon_url
     from entries as e inner join users as u on u.id = e.user_id
     where e.calendar_id = ? order by e.day] *)
Definition sql_find_entries (cid : Z) (d : database)
  : option (list (entries_row * users_row)) :=
  let joined := e ← entries d; u ← join_user (e_user_id e) d; [(e, u)] in
  Some (merge_sort (by_day (λ r, e_day r.1))
          (filter (λ r, e_calendar_id r.1 = cid) joined)).

(** [select calendar_id, count( * ) from entries
     where calendar_id in (?,...,?) group by calendar_id].
    An empty [in ()] list is not a statement the server accepts. *)
Definition sql_count_entries (ids : list Z) (d : database) : option (list (Z * Z)) :=
  match ids with
  | [] => None
  | _ =>
      let selected := filter (λ e, e_calendar_id e ∈ ids) (entries d) in
      Some ((λ cid, (cid, Z.of_nat (length (filter (λ e, e_calendar_id e = cid) selected))))
              <$> remove_dups (e_calendar_id <$> selected))
  end.

(** The condition fragments [ListCalendars] joins with [" and "]. *)
Inductive calendars_condition : Type :=
  | c_year_eq (year : Z)                               (* "c.year = ?" *)
  | c_user_id_eq (user_id : Z)                         (* "c.user_id = ?" *)
  | c_title_or_description_like (p1 p2 : string).      (* "(c.title like ? or c.description like ?)" *)

(** Descending [order by c.id desc]. *)
Definition by_id_desc {X} (id : X → Z) : relation X := λ x y, id y ≤ id x.

Global Instance by_id_desc_dec {X} (id : X → Z) x y : Decision (by_id_desc id x y).
Proof. unfold by_id_desc. apply _. Defined.

Global Instance by_id_desc_total {X} (id : X → Z) : Total (by_id_desc id).
Proof. intros x y. unfold by_id_desc. lia. Qed.

Section ListCalendarsQuery.
(** The [like] operator of the server: [sql_like s p] tells whether
    the string [s] matches the pattern [p]. *)
Variable sql_like : string → string → bool.

Definition calendars_condition_holds (c : calendars_row) (q : calendars_condition) : Prop :=
  match q with
  | c_year_eq y => c_year c = y
  | c_user_id_eq uid => c_user_id c = uid
  | c_title_or_description_like p1 p2 =>
      sql_like (c_title c) p1 = true ∨ sql_like (c_description c) p2 = true
  end.

Global Instance calendars_condition_holds_dec c q :
  Decision (calendars_condition_holds c q).
Proof. destruct q; simpl; apply _. Defined.

(** [select c.id, c.title, c.description, c.year, u.id, u.name, u.icon_url
     from calendars as c inner join users as u on u.id = c.user_id
     where <conditions> order by c.id desc <limit ?>].
    A negative [limit] is rejected by the server. *)
Definition sql_list_calendars (conditions : list calendars_condition)
    (limit : option Z) (d : database) : option (list (calendars_row * users_row)) :=
  let joined := c ← calendars d; u ← join_user (c_user_id c) d; [(c, u)] in
  let sorted :=
    merge_sort (by_id_desc (λ r, c_id r.1))
      (filter (λ r, Forall (calendars_condition_holds r.1) conditions) joined) in
  match limit with
  | None => Some sorted
  | Some n => if decide (n < 0) then None else Some (take (Z.to_nat n) sorted)
  end.
End ListCalendarsQuery.

(** ** The handlers *)

(** [getCurrentUser] *)
Definition getCurrentUser (s : Service) (ctx : Context) : M user :=
  match FromIncomingContext ctx with
  | None => fail ErrNoMetadata
  | Some md =>
      let values := md_get md "authorization" in
      match values with
      | [] => fail ErrNoAuthorization
      | v0 :: _ =>
          let authResult := VerifyIDToken (s_verifier s) v0 in
          a ← deref authResult;
          QueryRow (sql_select_user_by_auth (AuthProvider a) (AuthUID a))
      end
  end.

(** [bindEntryCount]: the calendars are updated in place through their
    pointers; the updated slice is returned. *)
Definition bindEntryCount (calendars : list pb.Calendar) : M (list pb.Calendar) :=
  let ids := pb.Calendar_Id <$> calendars in
  rows ← Query (sql_count_entries ids);
  entryCounts ← for_rows rows (∅ : gmap Z Z) (λ entryCounts row,
    let cid := row.1 in
    count ← scan_int32 row.2;
    mret (<[cid := count]> entryCounts));
  mret ((λ c, pb.MkCalendar (pb.Calendar_Id c) (pb.Calendar_Owner c) (pb.Calendar_Title c)
                (pb.Calendar_Description c) (pb.Calendar_Year c)
                (default 0 (entryCounts !! pb.Calendar_Id c))) <$> calendars).

(** [ListCalendars] *)
Definition ListCalendars (sql_like : string → string → bool)
    (s : Service) (req : pb.ListCalendarsRequest) : M pb.ListCalendarsResponse :=
  let conditionQueries := [c_year_eq (pb.ListCalendarsRequest_Year req)] in
  let limitQuery := None in
  let conditionQueries :=
    if decide (pb.ListCalendarsRequest_UserId req ≠ 0)
    then conditionQueries ++ [c_user_id_eq (pb.ListCalendarsRequest_UserId req)]
    else conditionQueries in
  let conditionQueries :=
    if decide (pb.ListCalendarsRequest_Query req ≠ "")
    then conditionQueries ++
         [c_title_or_description_like ("%" +:+ pb.ListCalendarsRequest_Query req +:+ "%")
                                      ("%" +:+ pb.ListCalendarsRequest_Query req +:+ "%")]
    else conditionQueries in
  let limitQuery :=
    if decide (pb.ListCalendarsRequest_PageSize req ≠ 0)
    then Some (pb.ListCalendarsRequest_PageSize req)
    else limitQuery in
  '(rows, err) ← go_call (Query (sql_list_calendars sql_like conditionQueries limitQuery));
  match err with
  | Some e => fail e
  | None =>
      defer (rows_Close rows) (
        rs ← deref rows;
        calendars ← for_rows rs [] (λ calendars row,
          let user := pb.MkUser (u_id row.2) (u_name row.2) (u_icon_url row.2) in
          let calendar :=
            pb.MkCalendar (c_id row.1) (Some user) (c_title row.1) (c_description row.1)
                          (c_year row.1) 0 in
          mret (calendars ++ [calendar]));
        calendars ← (if decide (length calendars ≠ 0%nat)
                     then bindEntryCount calendars
                     else mret calendars);
        mret (pb.MkListCalendarsResponse calendars))
  end.

(** [findEntries] *)
Definition findEntries (cid : Z) : M (list pb.Entry) :=
  rows ← Query (sql_find_entries cid);
  for_rows rows [] (λ entries row,
    let u := pb.MkUser (u_id row.2) (u_name row.2) (u_icon_url row.2) in
    let e := pb.MkEntry (e_id row.1) (Some u) None (e_day row.1) (e_title row.1)
                        (e_comment row.1) (e_url row.1) (e_image_url row.1) in
    mret (entries ++ [e])).

(** [GetCalendar] *)
Definition GetCalendar (s : Service) (req : pb.GetCalendarRequest) : M pb.GetCalendarResponse :=
  calendar ← QueryRow (sql_select_calendar (pb.GetCalendarRequest_CalendarId req));
  entries ← findEntries (calendar_ID calendar);
  let pbCalendar :=
    pb.MkCalendar (calendar_ID calendar) None (calendar_Title calendar)
                  (calendar_Description calendar) (calendar_Year calendar)
                  (int32 (Z.of_nat (length entries))) in
  mret (pb.MkGetCalendarResponse (Some pbCalendar) entries).

(** [UpdateCalendar] *)
Definition UpdateCalendar (s : Service) (ctx : Context) (req : pb.UpdateCalendarRequest)
  : M pb.Calendar :=
  currentUser ← getCurrentUser s ctx;
  stmt ← Prepare sql_update_calendar;
  defer (stmt_Close stmt) (
    _ ← Exec (stmt (pb.UpdateCalendarRequest_Title req)
                   (pb.UpdateCalendarRequest_Description req)
                   (pb.UpdateCalendarRequest_CalendarId req)
                   (user_ID currentUser));
    calendar ← QueryRow (sql_select_calendar (pb.UpdateCalendarRequest_CalendarId req));
    mret (pb.MkCalendar (calendar_ID calendar) None (calendar_Title calendar)
                        (calendar_Description calendar) (calendar_Year calendar) 0)).

(** [DeleteCalendar]: the error of [getCurrentUser] is overwritten by
    the one of [Prepare] before it is looked at. *)
Definition DeleteCalendar (s : Service) (ctx : Context) (req : pb.DeleteCalendarRequest)
  : M pb.Empty :=
  '(currentUser, err) ← go_call (getCurrentUser s ctx);
  '(stmt, err) ← go_call (Prepare sql_delete_calendar);
  match err with
  | Some e => fail e
  | None =>
      stmt ← deref stmt;
      defer (stmt_Close stmt) (
        u ← deref currentUser;
        _ ← Exec (stmt (pb.DeleteCalendarRequest_CalendarId req) (user_ID u));
        mret pb.MkEmpty)
  end.

(** [res.LastInsertId()] *)
Definition Result_LastInsertId (res : sql_Result) : M Z := mret (LastInsertId res).

(** [ListEntries]: [rows.Close] is deferred before the error of the
    query is looked at. *)
Definition ListEntries (s : Service) (req : pb.ListEntriesRequest) : M pb.ListEntriesResponse :=
  let conditionQueries := [e_user_id_eq (pb.ListEntriesRequest_UserId req)] in
  let conditionQueries :=
    if decide (pb.ListEntriesRequest_Year req ≠ 0)
    then conditionQueries ++ [ec_year_eq (pb.ListEntriesRequest_Year req)]
    else conditionQueries in
  '(rows, err) ← go_call (Query (sql_list_entries conditionQueries));
  defer (rows_Close rows) (
    match err with
    | Some e => fail e
    | None =>
        rs ← deref rows;
        entries ← for_rows rs [] (λ entries row,
          let '(re, rc, ru) := row in
          let c := pb.MkCalendar (c_id rc) None (c_title rc) (c_description rc) 0 0 in
          let u := pb.MkUser (u_id ru) (u_name ru) (u_icon_url ru) in
          let e := pb.MkEntry (e_id re) (Some u) (Some c) (e_day re) (e_title re)
                              (e_comment re) (e_url re) (e_image_url re) in
          mret (entries ++ [e]));
        mret (pb.MkListEntriesResponse entries)
    end).

(** [CreateEntry] *)
Definition CreateEntry (s : Service) (ctx : Context) (req : pb.CreateEntryRequest)
  : M pb.Entry :=
  currentUser ← getCurrentUser s ctx;
  year ← QueryRow (sql_select_calendar_year (pb.CreateEntryRequest_CalendarId req));
  let day := pb.CreateEntryRequest_Day req in
  if decide (day < 1 ∨ day > 25) then fail (ErrInvalidDay day) else
  stmt ← Prepare sql_insert_entry;
  defer (stmt_Close stmt) (
    res ← Exec (stmt (user_ID currentUser) (pb.CreateEntryRequest_CalendarId req) day);
    lastID ← Result_LastInsertId res;
    entryID ← QueryRow (sql_select_calendar_id lastID);
    mret (pb.MkEntry entryID None None 0 "" "" "" "")).

(** [UpdateEntry] *)
Definition UpdateEntry (s : Service) (ctx : Context) (req : pb.UpdateEntryRequest)
  : M pb.Entry :=
  currentUser ← getCurrentUser s ctx;
  stmt ← Prepare sql_update_entry;
  defer (stmt_Close stmt) (
    _ ← Exec (stmt (pb.UpdateEntryRequest_Comment req) (pb.UpdateEntryRequest_Url req)
                   (pb.UpdateEntryRequest_EntryId req) (user_ID currentUser));
    let reread : M pb.Entry :=
      '(comment, url, title, imageURL) ←
        QueryRow (sql_select_entry (pb.UpdateEntryRequest_EntryId req));
      mret (pb.MkEntry (pb.UpdateEntryRequest_EntryId req) None None 0
                       title comment url imageURL) in
    if decide (pb.UpdateEntryRequest_Url req ≠ "")
    then
      match Fetch (s_metaFetcher s) (pb.UpdateEntryRequest_Url req) with
      | inr e => fail e
      | inl m =>
          stmt ← Prepare sql_update_entry_meta;
          defer (stmt_Close stmt) (
            _ ← Exec (stmt (Title m) (ImageURL m)
                           (pb.UpdateEntryRequest_EntryId req) (user_ID currentUser));
            reread)
      end
    else reread).

(** [DeleteEntry] *)
Definition DeleteEntry (s : Service) (ctx : Context) (req : pb.DeleteEntryRequest)
  : M pb.Empty :=
  currentUser ← getCurrentUser s ctx;
  stmt ← Prepare sql_delete_entry;
  _ ← Exec (stmt (pb.DeleteEntryRequest_EntryId req) (user_ID currentUser));
  mret pb.MkEmpty.

(** [SignIn] *)
Definition SignIn (s : Service) (req : pb.SignInRequest) : M pb.Empty :=
  let authResult := VerifyIDToken (s_verifier s) (pb.SignInRequest_Jwt req) in
  a ← deref authResult;
  '(scanned, err) ← go_call (QueryRow (sql_select_user_id_by_auth (AuthProvider a) (AuthUID a)));
  let userID := default 0 scanned in
  match err with
  | Some e =>
      if decide (e ≠ ErrNoRows) then fail e else
      stmt ← Prepare sql_insert_user;
      defer (stmt_Close stmt) (
        _ ← Exec (stmt (Name a) (AuthUID a) (AuthProvider a) (IconURL a));
        mret pb.MkEmpty)
  | None =>
      stmt ← Prepare sql_update_user_icon;
      defer (stmt_Close stmt) (
        _ ← Exec (stmt (IconURL a) userID);
        mret pb.MkEmpty)
  end.

(** ** Integrity of the store

    The relationships of the data model: [id] is the key of each table
    and is handed out by its counter, every [user_id] and [calendar_id]
    names a row, and an identity [(auth_provider, auth_uid)] belongs to
    at most one user. *)

Definition users_key (d : database) : Prop := NoDup (u_id <$> users d).
Definition calendars_key (d : database) : Prop := NoDup (c_id <$> calendars d).
Definition entries_key (d : database) : Prop := NoDup (e_id <$> entries d).

Definition calendars_owner_ref (d : database) : Prop :=
  Forall (λ c, c_user_id c ∈ u_id <$> users d) (calendars d).
Definition entries_owner_ref (d : database) : Prop :=
  Forall (λ e, e_user_id e ∈ u_id <$> users d) (entries d).
Definition entries_calendar_ref (d : database) : Prop :=
  Forall (λ e, e_calendar_id e ∈ c_id <$> calendars d) (entries d).

Definition users_identity_key (d : database) : Prop :=
  NoDup ((λ r, (u_auth_provider r, u_auth_uid r)) <$> users d).

(** The caller of an RPC is authenticated as the user row [u]: the
    context carries an [authorization] value, the verifier resolves it
    to an identity, and [u] is the first row of that identity. *)
Definition authenticated (s : Service) (ctx : Context) (d : database) (u : users_row) : Prop :=
  ∃ md tok rest a,
    FromIncomingContext ctx = Some md ∧
    md !! "authorization" = Some (tok :: rest) ∧
    VerifyIDToken (s_verifier s) tok = Some a ∧
    head (filter (has_identity (AuthProvider a) (AuthUID a)) (users d)) = Some u.

(** No driver failure is scheduled. *)
Definition healthy (w : world) : Prop := w_faults w = [].

(** A computation that leaves the store as it found it. *)
Definition preserves_db {A} (m : M A) : Prop := ∀ w, w_db (m w).2 = w_db w.

(** ** Reference views of the rows

    What a response is expected to carry for a stored row, read off the
    tables directly (no join, no sort). *)

Definition owner_of (d : database) (uid : Z) : option users_row :=
  head (filter (λ u, u_id u = uid) (users d)).

Definition calendar_of (d : database) (cid : Z) : option calendars_row :=
  head (filter (λ c, c_id c = cid) (calendars d)).

Definition user_view (u : users_row) : pb.User :=
  pb.MkUser (u_id u) (u_name u) (u_icon_url u).

(** A calendar as [ListCalendars] lists it: its columns, its owner and
    the number of entries rows whose [calendar_id] is its id. *)
Definition calendar_view (d : database) (c : calendars_row) : pb.Calendar :=
  pb.MkCalendar (c_id c) (user_view <$> owner_of d (c_user_id c))
                (c_title c) (c_description c) (c_year c)
                (Z.of_nat (length (filter (λ e, e_calendar_id e = c_id c) (entries d)))).

(** The calendar snapshot embedded in an entry by [ListEntries]: id,
    title and description. *)
Definition calendar_snapshot (c : calendars_row) : pb.Calendar :=
  pb.MkCalendar (c_id c) None (c_title c) (c_description c) 0 0.

(** An entry as [GetCalendar] lists it: its columns and its owner. *)
Definition entry_view (d : database) (e : entries_row) : pb.Entry :=
  pb.MkEntry (e_id e) (user_view <$> owner_of d (e_user_id e)) None
             (e_day e) (e_title e) (e_comment e) (e_url e) (e_image_url e).

(** An entry as [ListEntries] lists it: its columns, its owner and the
    snapshot of its calendar. *)
Definition entry_snapshot (d : database) (e : entries_row) : pb.Entry :=
  pb.MkEntry (e_id e) (user_view <$> owner_of d (e_user_id e))
             (calendar_snapshot <$> calendar_of d (e_calendar_id e))
             (e_day e) (e_title e) (e_comment e) (e_url e) (e_image_url e).

(** The rows [ListEntries(U, Y)] lists: the entries of [U] whose
    calendar row exists, and when [Y] is not zero only those whose
    calendar has year [Y]. *)
Definition listed_entry (d : database) (U Y : Z) (e : entries_row) : Prop :=
  e_user_id e = U ∧
  match calendar_of d (e_calendar_id e) with
  | Some c => Y ≠ 0 → c_year c = Y
  | None => False
  end.

Global Instance listed_entry_dec d U Y e : Decision (listed_entry d U Y e).
Proof. unfold listed_entry. destruct (calendar_of d (e_calendar_id e)); apply _. Defined.

(** The columns of a user row that sign-in never writes. *)
Definition identity_columns (r : users_row) : Z * string * string * string :=
  (u_id r, u_name r, u_auth_uid r, u_auth_provider r).

(** ** A sample deployment

    Two signed-in users, three calendars and four entries, used to run
    the handlers on concrete requests. *)
Module Sample.

Definition the_verifier : verifier :=
  MkVerifier (λ tok,
    if decide (tok = "alice-token") then Some (MkAuthResult "github" "a1" "Alice" "alice.png")
    else if decide (tok = "bob-token") then Some (MkAuthResult "github" "b1" "Bob" "bob.png")
    else if decide (tok = "carol-token") then Some (MkAuthResult "github" "c1" "Carol" "carol.png")
    else if decide (tok = "carol-token-2") then Some (MkAuthResult "github" "c1" "Carol" "carol2.png")
    else None).

Definition the_fetcher : metaFetcher :=
  MkMetaFetcher (λ url,
    if decide (url = "http://example.com") then inr (ErrFetch "connection refused")
    else inl (MkSiteMeta "A title" "preview.png")).

Definition service : Service := MkService the_verifier the_fetcher.

Definition bearer (tok : string) : Context :=
  MkContext (Some {[ "authorization" := [tok] ]}).

(** A request whose metadata has no [authorization] key. *)
Definition anonymous : Context := MkContext (Some ∅).

Definition alice : users_row := UsersRow 1 "Alice" "a1" "github" "alice-old.png".
Definition bob : users_row := UsersRow 2 "Bob" "b1" "github" "bob-old.png".

Definition advent : calendars_row := CalendarsRow 1 1 "Rocq" "Proofs a day" 2023.
Definition golang : calendars_row := CalendarsRow 2 2 "Go" "Gophers" 2023.
Definition older : calendars_row := CalendarsRow 3 2 "Go" "Last year" 2022.

Definition entry1 : entries_row := EntriesRow 1 2 1 5 "fifth" "http://b.example" "B" "b.png".
Definition entry2 : entries_row := EntriesRow 2 1 1 3 "" "" "" "".
Definition entry3 : entries_row := EntriesRow 3 1 2 1 "" "" "" "".
Definition entry4 : entries_row := EntriesRow 4 1 3 1 "" "" "" "".

Definition store : database :=
  Database [alice; bob] [advent; golang; older] [entry1; entry2; entry3; entry4] 3 4 5.

Definition no_like : string → string → bool := λ _ _, false.

End Sample.

(** ** The remaining calendar handler *)

(** [insert into calendars(user_id, title, description, year)
     values(?, ?, ?, ?)] *)
Definition sql_insert_calendar (uid : Z) (title description : string) (year : Z)
    (d : database) : database * sql_Result :=
  let id := calendars_seq d in
  (Database (users d)
            (calendars d ++ [CalendarsRow id uid title description year])
            (entries d) (users_seq d) (id + 1) (entries_seq d),
   SqlResult id 1).

(** [CreateCalendar]; [now_year] is what [time.Now().Year()] returns
    when the insert is executed. *)
Definition CreateCalendar (now_year : Z) (s : Service) (ctx : Context)
    (req : pb.CreateCalendarRequest) : M pb.Calendar :=
  currentUser ← getCurrentUser s ctx;
  stmt ← Prepare sql_insert_calendar;
  defer (stmt_Close stmt) (
    res ← Exec (stmt (user_ID currentUser) (pb.CreateCalendarRequest_Title req)
                     (pb.CreateCalendarRequest_Description req) now_year);
    lastID ← Result_LastInsertId res;
    calendar ← QueryRow (sql_select_calendar lastID);
    mret (pb.MkCalendar (calendar_ID calendar) None (calendar_Title calendar)
                        (calendar_Description calendar) (calendar_Year calendar) 0)).

(** ** Integrity kept by the handlers *)

(** Every stored id is below the counter of its table, so the next
    insert gets an id no row has. *)
Definition counters_fresh (d : database) : Prop :=
  Forall (λ r, u_id r < users_seq d) (users d) ∧
  Forall (λ r, c_id r < calendars_seq d) (calendars d) ∧
  Forall (λ r, e_id r < entries_seq d) (entries d).

(** The integrity of the store that does not depend on calendars
    being kept: keys, identities, owners and counters. *)
Definition store_integrity (d : database) : Prop :=
  users_key d ∧ calendars_key d ∧ entries_key d ∧ users_identity_key d ∧
  calendars_owner_ref d ∧ entries_owner_ref d ∧ counters_fresh d.

(** [triple P m Q]: run on a store satisfying [P], under any schedule
    of driver failures, [m] ends with an outcome and a store related
    by [Q]. *)
Definition triple {A} (P : database → Prop) (m : M A)
    (Q : outcome A → database → Prop) : Prop :=
  ∀ w, P (w_db w) → Q (m w).1 (w_db (m w).2).

(** * Properties *)

(** ** Running the primitives on a healthy world *)

Ltac run_bind := unfold mbind, M_bind.
Ltac run := unfold mbind, M_bind, mret, M_ret, fail, panic.

Lemma QueryRow_healthy {R} (q : database → list R) d :
  QueryRow q (World d []) =
  (match q d with r :: _ => Ok r | [] => Err ErrNoRows end, World d []).
Proof. unfold QueryRow. run. simpl. by destruct (q d). Qed.

Lemma Query_healthy {R} (q : database → option (list R)) d :
  Query q (World d []) =
  (match q d with Some rows => Ok rows | None => Err ErrDriver end, World d []).
Proof. unfold Query. run. simpl. by destruct (q d). Qed.

Lemma Prepare_healthy {S} (stmt : S) d : Prepare stmt (World d []) = (Ok stmt, World d []).
Proof. reflexivity. Qed.

Lemma Exec_healthy run d :
  Exec run (World d []) = (Ok (run d).2, World (run d).1 []).
Proof. unfold Exec. run. simpl. by destruct (run d). Qed.

Lemma healthy_world w : healthy w → w = World (w_db w) [].
Proof. destruct w as [d fs]. unfold healthy. simpl. by intros ->. Qed.

(** A loop whose body only appends is a map over the rows. *)
Lemma for_rows_append {R B} (body : list B → R → M (list B)) (f : R → B)
    (rows : list R) (acc : list B) w :
  (∀ acc r, body acc r = mret (acc ++ [f r])) →
  for_rows rows acc body w = (Ok (acc ++ (f <$> rows)), w).
Proof.
  intros Hbody. revert acc. induction rows as [|r rows IH]; intros acc; simpl.
  - by rewrite app_nil_r.
  - rewrite Hbody. run. rewrite IH. by rewrite <- app_assoc.
Qed.

(** ** Keys and joins *)

Lemma filter_none {A} (P : A → Prop) `{!∀ x, Decision (P x)} (l : list A) :
  (∀ x, x ∈ l → ¬ P x) → filter P l = [].
Proof.
  induction l as [|y l IH]; intros Hl; [done|].
  rewrite filter_cons_False by (apply Hl; left).
  apply IH. intros x Hx. apply Hl. by right.
Qed.

Lemma filter_some {A} (P : A → Prop) `{!∀ x, Decision (P x)} (l : list A) (x : A) :
  x ∈ l → P x → ∃ y ys, filter P l = y :: ys ∧ P y.
Proof.
  intros Hin HP. destruct (filter P l) as [|y ys] eqn:Hf.
  - exfalso. by eapply (filter_nil_not_elem_of P l x).
  - exists y, ys. split; [done|].
    assert (Hy : y ∈ filter P l) by (rewrite Hf; left).
    by apply list_elem_of_filter in Hy as [Hy _].
Qed.

Lemma filter_key {A} (key : A → Z) (l : list A) (x : A) :
  NoDup (key <$> l) → x ∈ l → filter (λ r, key r = key x) l = [x].
Proof.
  induction l as [|y l IH]; intros Hnd Hin; [by apply elem_of_nil in Hin|].
  rewrite fmap_cons in Hnd. apply NoDup_cons in Hnd as [Hy Hnd].
  apply elem_of_cons in Hin as [->|Hin].
  - rewrite filter_cons_True by done. f_equal.
    apply filter_none. intros r Hr Heq. apply Hy. rewrite <- Heq.
    by apply list_elem_of_fmap_2.
  - rewrite filter_cons_False; [by apply IH|].
    intros Heq. apply Hy. rewrite Heq. by apply list_elem_of_fmap_2.
Qed.

Lemma filter_no_key {A} (key : A → Z) (l : list A) (v : Z) :
  v ∉ key <$> l → filter (λ r, key r = v) l = [].
Proof.
  intros Hv. apply filter_none. intros r Hr Heq. apply Hv. rewrite <- Heq.
  by apply list_elem_of_fmap_2.
Qed.

Lemma filter_key_ref {A} (key : A → Z) (l : list A) (v : Z) :
  NoDup (key <$> l) → v ∈ key <$> l →
  ∃ x, x ∈ l ∧ key x = v ∧ filter (λ r, key r = v) l = [x].
Proof.
  intros Hnd (x & -> & Hx)%list_elem_of_fmap. exists x. split_and!; [done..|].
  by apply filter_key.
Qed.

(** ** Authentication *)

Lemma getCurrentUser_authenticated s ctx d u :
  authenticated s ctx d u →
  getCurrentUser s ctx (World d []) =
  (Ok (MkUser (u_id u) (u_name u) (u_icon_url u)), World d []).
Proof.
  intros (md & tok & rest & a & Hmd & Hauth & Hver & Hrow).
  unfold getCurrentUser, md_get. rewrite Hmd, Hauth. simpl. rewrite Hver. simpl.
  run. rewrite QueryRow_healthy. unfold sql_select_user_by_auth.
  destruct (filter _ (users d)) as [|r rs]; simplify_eq/=. done.
Qed.

(** ** The sample deployment *)

Lemma sample_alice_authenticated :
  authenticated Sample.service (Sample.bearer "alice-token") Sample.store Sample.alice.
Proof.
  exists {[ "authorization" := ["alice-token"] ]}, "alice-token", [],
         (MkAuthResult "github" "a1" "Alice" "alice.png").
  repeat split; vm_compute; reflexivity.
Qed.

Lemma sample_store_keys :
  users_key Sample.store ∧ calendars_key Sample.store ∧ entries_key Sample.store ∧
  users_identity_key Sample.store.
Proof.
  unfold users_key, calendars_key, entries_key, users_identity_key.
  repeat split; compute_done.
Qed.

Lemma sample_store_refs :
  calendars_owner_ref Sample.store ∧ entries_owner_ref Sample.store ∧
  entries_calendar_ref Sample.store.
Proof.
  unfold calendars_owner_ref, entries_owner_ref, entries_calendar_ref.
  repeat split; compute_done.
Qed.

(** ** DeleteCalendar *)

(** Whenever [getCurrentUser] returns an error, [DeleteCalendar] goes
    on to prepare its statement and then reads [currentUser.ID] through
    the nil pointer. *)
Lemma DeleteCalendar_without_user s ctx req d e :
  getCurrentUser s ctx (World d []) = (Err e, World d []) →
  DeleteCalendar s ctx req (World d []) = (Panic, World d []).
Proof.
  intros Hcur. unfold DeleteCalendar. run. unfold go_call at 1. rewrite Hcur.
  reflexivity.
Qed.

(** C2: at a request without an [authorization] value, and at one
    whose verified identity has no user row, [getCurrentUser] returns
    its error but [DeleteCalendar] does not return it: the handler
    panics on the nil [currentUser] (no calendar row is deleted). *)
Theorem DeleteCalendar_unauthenticated_panics :
  let w := World Sample.store [] in
  let req := pb.MkDeleteCalendarRequest 1 in
  getCurrentUser Sample.service Sample.anonymous w = (Err ErrNoAuthorization, w) ∧
  DeleteCalendar Sample.service Sample.anonymous req w = (Panic, w) ∧
  getCurrentUser Sample.service (Sample.bearer "carol-token") w = (Err ErrNoRows, w) ∧
  DeleteCalendar Sample.service (Sample.bearer "carol-token") req w = (Panic, w).
Proof. repeat split; vm_compute; reflexivity. Qed.

(** ** ListEntries on a failing query *)

(** When the entries query fails, [rows] is nil and the deferred
    [rows.Close()] panics. *)
Lemma ListEntries_query_error s req d fs :
  ListEntries s req (World d (true :: fs)) = (Panic, World d fs).
Proof. unfold ListEntries. destruct (decide _); reflexivity. Qed.

(** C10: with a driver failure scheduled for the entries query,
    [ListEntries] neither returns a response nor returns the error: the
    deferred [rows.Close()] runs on the nil rows handle and panics. *)
Theorem ListEntries_query_error_panics :
  ListEntries Sample.service (pb.MkListEntriesRequest 1 2023) (World Sample.store [true])
  = (Panic, World Sample.store []).
Proof. vm_compute. reflexivity. Qed.

(** ** CreateEntry *)

(** After the insert, [CreateEntry] looks the new entry id up in the
    [calendars] table. *)
Lemma CreateEntry_rereads_calendars s ctx req d u :
  authenticated s ctx d u →
  pb.CreateEntryRequest_CalendarId req ∈ c_id <$> calendars d →
  1 ≤ pb.CreateEntryRequest_Day req ≤ 25 →
  let d' := (sql_insert_entry (u_id u) (pb.CreateEntryRequest_CalendarId req)
                              (pb.CreateEntryRequest_Day req) d).1 in
  CreateEntry s ctx req (World d []) =
  (if decide (entries_seq d ∈ c_id <$> calendars d)
   then Ok (pb.MkEntry (entries_seq d) None None 0 "" "" "" "")
   else Err ErrNoRows,
   World d' []).
Proof.
  intros Hauth Hcal Hday d'. unfold CreateEntry. run.
  rewrite (getCurrentUser_authenticated _ _ _ _ Hauth). simpl.
  rewrite QueryRow_healthy. unfold sql_select_calendar_year.
  apply list_elem_of_fmap in Hcal as (c & Hc & Hin). symmetry in Hc.
  destruct (filter_some (λ r, c_id r = pb.CreateEntryRequest_CalendarId req) _ c Hin Hc)
    as (c' & cs & -> & _).
  simpl. rewrite decide_False by lia.
  unfold defer. rewrite Prepare_healthy, Exec_healthy. simpl.
  unfold Result_LastInsertId. run. rewrite QueryRow_healthy. simpl.
  unfold sql_select_calendar_id. simpl.
  destruct (decide (entries_seq d ∈ c_id <$> calendars d)) as [Hseq|Hseq].
  - apply list_elem_of_fmap in Hseq as (c0 & Hc0 & Hin0).
    symmetry in Hc0.
    destruct (filter_some (λ r, c_id r = entries_seq d) _ c0 Hin0 Hc0)
      as (c1 & cs1 & -> & Hc1).
    simpl. by rewrite Hc1.
  - by rewrite filter_no_key.
Qed.

(** C3: [CreateEntry] on the sample store inserts entry 5 for day 7 of
    calendar 1 and then fails with [sql.ErrNoRows], because no calendar
    has id 5; the new id is not returned. *)
Theorem CreateEntry_new_id_not_returned :
  let req := pb.MkCreateEntryRequest 1 7 in
  let r := CreateEntry Sample.service (Sample.bearer "alice-token") req
             (World Sample.store []) in
  r.1 = Err ErrNoRows ∧
  entries (w_db r.2) = entries Sample.store ++ [EntriesRow 5 1 1 7 "" "" "" ""].
Proof. split; vm_compute; reflexivity. Qed.

(** ** Handlers that leave the store alone *)

Lemma preserves_db_ret {A} (a : A) : preserves_db (mret a).
Proof. by intros w. Qed.

Lemma preserves_db_fail {A} (e : error) : preserves_db (@fail A e).
Proof. by intros w. Qed.

Lemma preserves_db_panic {A} : preserves_db (@panic A).
Proof. by intros w. Qed.

Lemma preserves_db_bind {A B} (m : M A) (f : A → M B) :
  preserves_db m → (∀ a, preserves_db (f a)) → preserves_db (m ≫= f).
Proof.
  intros Hm Hf w. run. specialize (Hm w).
  destruct (m w) as [[a|e|] w']; simpl in *; [|done..].
  by rewrite Hf.
Qed.

Lemma preserves_db_round_trip : preserves_db round_trip.
Proof. intros [d [|[] fs]]; reflexivity. Qed.

Lemma preserves_db_QueryRow {R} (q : database → list R) : preserves_db (QueryRow q).
Proof.
  unfold QueryRow. apply preserves_db_bind; [apply preserves_db_round_trip|].
  intros _. apply preserves_db_bind; [by intros w|].
  intros d. destruct (q d); [apply preserves_db_fail|apply preserves_db_ret].
Qed.

Lemma preserves_db_getCurrentUser s ctx : preserves_db (getCurrentUser s ctx).
Proof.
  unfold getCurrentUser. destruct (FromIncomingContext ctx); [|apply preserves_db_fail].
  destruct (md_get _ _); [apply preserves_db_fail|].
  apply preserves_db_bind; [|intros; apply preserves_db_QueryRow].
  destruct (VerifyIDToken _ _); [apply preserves_db_ret|apply preserves_db_panic].
Qed.

Create HintDb preserves discriminated.
#[local] Hint Resolve preserves_db_ret preserves_db_fail preserves_db_panic
  preserves_db_round_trip preserves_db_QueryRow preserves_db_getCurrentUser : preserves.

(** C4: a day below 1 or above 25 never reaches the insert: the store
    after [CreateEntry] is the store before it, and for an
    authenticated caller and an existing calendar the call fails with
    the invalid-day error. *)
Theorem CreateEntry_invalid_day s ctx req w u :
  pb.CreateEntryRequest_Day req < 1 ∨ pb.CreateEntryRequest_Day req > 25 →
  w_db (CreateEntry s ctx req w).2 = w_db w ∧
  (healthy w →
   authenticated s ctx (w_db w) u →
   pb.CreateEntryRequest_CalendarId req ∈ c_id <$> calendars (w_db w) →
   CreateEntry s ctx req w = (Err (ErrInvalidDay (pb.CreateEntryRequest_Day req)), w)).
Proof.
  intros Hday. split.
  - revert w. change (preserves_db (CreateEntry s ctx req)). unfold CreateEntry.
    apply preserves_db_bind; [auto with preserves|]. intros cu.
    apply preserves_db_bind; [auto with preserves|]. intros year.
    rewrite decide_True by done. auto with preserves.
  - intros Hw Hauth Hcal. rewrite (healthy_world w Hw). unfold CreateEntry. run.
    rewrite (getCurrentUser_authenticated _ _ _ _ Hauth). simpl.
    rewrite QueryRow_healthy. unfold sql_select_calendar_year.
    apply list_elem_of_fmap in Hcal as (c & Hc & Hin). symmetry in Hc.
    destruct (filter_some (λ r, c_id r = pb.CreateEntryRequest_CalendarId req) _ c Hin Hc)
      as (c' & cs & -> & _).
    simpl. by rewrite decide_True.
Qed.

(** On the sample store: Alice asks for day 26 of calendar 1. *)
Lemma CreateEntry_invalid_day_witness :
  let w := World Sample.store [] in
  let req := pb.MkCreateEntryRequest 1 26 in
  w_db (CreateEntry Sample.service (Sample.bearer "alice-token") req w).2 = w_db w ∧
  CreateEntry Sample.service (Sample.bearer "alice-token") req w = (Err (ErrInvalidDay 26), w).
Proof.
  intros w req.
  destruct (CreateEntry_invalid_day Sample.service (Sample.bearer "alice-token") req w
              Sample.alice) as [Hdb Herr].
  - right. simpl. lia.
  - split; [exact Hdb|]. apply Herr.
    + reflexivity.
    + apply sample_alice_authenticated.
    + compute_done.
Defined.

Lemma key_inj {A} (key : A → Z) (l : list A) (x y : A) :
  NoDup (key <$> l) → x ∈ l → y ∈ l → key y = key x → y = x.
Proof.
  intros Hnd Hx Hy Heq.
  assert (Hin : y ∈ filter (λ r, key r = key x) l) by by apply list_elem_of_filter.
  rewrite (filter_key key l x Hnd Hx) in Hin. by apply list_elem_of_singleton in Hin.
Qed.

Lemma fmap_ext_elem_of {A B} (f g : A → B) (l : list A) :
  (∀ x, x ∈ l → f x = g x) → f <$> l = g <$> l.
Proof.
  induction l as [|y l IH]; intros Hfg; [done|].
  rewrite !fmap_cons. f_equal; [apply Hfg; left|].
  apply IH. intros x Hx. apply Hfg. by right.
Qed.

(** ** UpdateCalendar *)

(** C7: for an authenticated caller who does not own calendar [C],
    [UpdateCalendar] succeeds, leaves the whole store as it was and
    returns the stored columns of [C]. *)
Theorem UpdateCalendar_not_owner s ctx req w u C :
  healthy w →
  calendars_key (w_db w) →
  authenticated s ctx (w_db w) u →
  C ∈ calendars (w_db w) →
  c_id C = pb.UpdateCalendarRequest_CalendarId req →
  c_user_id C ≠ u_id u →
  UpdateCalendar s ctx req w =
  (Ok (pb.MkCalendar (c_id C) None (c_title C) (c_description C) (c_year C) 0), w).
Proof.
  intros Hw Hkey Hauth HC Hid Hown. rewrite (healthy_world w Hw).
  destruct w as [d fs]. simpl in *. clear Hw fs.
  unfold UpdateCalendar. run.
  rewrite (getCurrentUser_authenticated _ _ _ _ Hauth). simpl.
  unfold defer. rewrite Exec_healthy. simpl.
  assert (Hsame : (λ r, if decide (c_id r = pb.UpdateCalendarRequest_CalendarId req
                                   ∧ c_user_id r = u_id u)
                        then CalendarsRow (c_id r) (c_user_id r)
                               (pb.UpdateCalendarRequest_Title req)
                               (pb.UpdateCalendarRequest_Description req) (c_year r)
                        else r) <$> calendars d = calendars d).
  { rewrite <- (list_fmap_id (calendars d)) at 2. apply fmap_ext_elem_of.
    intros r Hr. rewrite decide_False; [done|]. intros [Hrid Hruid].
    rewrite <- Hid in Hrid. apply (key_inj c_id _ C r Hkey HC Hr) in Hrid.
    subst r. done. }
  rewrite Hsame.
  replace (Database (users d) (calendars d) (entries d) (users_seq d)
                    (calendars_seq d) (entries_seq d)) with d by by destruct d.
  rewrite QueryRow_healthy. unfold sql_select_calendar.
  rewrite <- Hid. rewrite (filter_key c_id _ C Hkey HC). reflexivity.
Qed.

(** On the sample store: Alice renames calendar 2, which is Bob's. *)
Lemma UpdateCalendar_not_owner_witness :
  UpdateCalendar Sample.service (Sample.bearer "alice-token")
    (pb.MkUpdateCalendarRequest 2 "Mine" "now") (World Sample.store [])
  = (Ok (pb.MkCalendar 2 None "Go" "Gophers" 2023 0), World Sample.store []).
Proof.
  apply (UpdateCalendar_not_owner Sample.service (Sample.bearer "alice-token")
           (pb.MkUpdateCalendarRequest 2 "Mine" "now") (World Sample.store [])
           Sample.alice Sample.golang).
  - reflexivity.
  - apply sample_store_keys.
  - apply sample_alice_authenticated.
  - compute_done.
  - reflexivity.
  - simpl. lia.
Defined.

(** ** UpdateEntry *)

(** C1: when the metadata fetch fails for the owner of entry [E],
    [UpdateEntry] returns the error of the fetcher; the title and the
    image of [E] are the stored ones, but its comment and url are
    already those of the request, and no other row has changed. *)
Theorem UpdateEntry_fetch_error s ctx req w u E err :
  healthy w →
  entries_key (w_db w) →
  authenticated s ctx (w_db w) u →
  E ∈ entries (w_db w) →
  e_id E = pb.UpdateEntryRequest_EntryId req →
  e_user_id E = u_id u →
  pb.UpdateEntryRequest_Url req ≠ "" →
  Fetch (s_metaFetcher s) (pb.UpdateEntryRequest_Url req) = inr err →
  let r := UpdateEntry s ctx req w in
  r.1 = Err err ∧
  users (w_db r.2) = users (w_db w) ∧
  calendars (w_db r.2) = calendars (w_db w) ∧
  entries (w_db r.2) =
    (λ x, if decide (e_id x = e_id E)
          then EntriesRow (e_id E) (e_user_id E) (e_calendar_id E) (e_day E)
                          (pb.UpdateEntryRequest_Comment req) (pb.UpdateEntryRequest_Url req)
                          (e_title E) (e_image_url E)
          else x) <$> entries (w_db w).
Proof.
  intros Hw Hkey Hauth HE Hid Hown Hurl Hfetch r. subst r.
  rewrite (healthy_world w Hw). destruct w as [d fs]. simpl in *. clear Hw fs.
  unfold UpdateEntry. run.
  rewrite (getCurrentUser_authenticated _ _ _ _ Hauth). simpl.
  unfold defer. rewrite Exec_healthy. simpl.
  rewrite decide_True by done. rewrite Hfetch. simpl.
  split_and!; [done..|].
  apply fmap_ext_elem_of. intros x Hx.
  destruct (decide (e_id x = e_id E)) as [Hx_id|Hx_id].
  - apply (key_inj e_id _ E x Hkey HE Hx) in Hx_id. subst x.
    by rewrite decide_True.
  - rewrite decide_False; [done|]. intros [? _]. apply Hx_id. congruence.
Qed.

(** On the sample store: Alice updates her entry 2 with a url whose
    fetch fails. *)
Lemma UpdateEntry_fetch_error_witness :
  let req := pb.MkUpdateEntryRequest 2 "hi" "http://example.com" in
  let r := UpdateEntry Sample.service (Sample.bearer "alice-token") req
             (World Sample.store []) in
  r.1 = Err (ErrFetch "connection refused") ∧
  users (w_db r.2) = users Sample.store ∧
  calendars (w_db r.2) = calendars Sample.store ∧
  entries (w_db r.2) =
    (λ x, if decide (e_id x = 2)
          then EntriesRow 2 1 1 3 "hi" "http://example.com" "" ""
          else x) <$> entries Sample.store.
Proof.
  apply (UpdateEntry_fetch_error Sample.service (Sample.bearer "alice-token")
           (pb.MkUpdateEntryRequest 2 "hi" "http://example.com")
           (World Sample.store []) Sample.alice Sample.entry2
           (ErrFetch "connection refused")).
  - reflexivity.
  - apply sample_store_keys.
  - apply sample_alice_authenticated.
  - compute_done.
  - reflexivity.
  - reflexivity.
  - discriminate.
  - reflexivity.
Defined.

(** C1, as first stated, fails: Alice owns entry 2, the fetch for
    [http://example.com] fails and [UpdateEntry] returns that error,
    yet the stored comment and url of entry 2 are no longer the ones
    from before the call. *)
Lemma UpdateEntry_fetch_error_partial_update :
  let w := World Sample.store [] in
  let req := pb.MkUpdateEntryRequest 2 "hi" "http://example.com" in
  let r := UpdateEntry Sample.service (Sample.bearer "alice-token") req w in
  authenticated Sample.service (Sample.bearer "alice-token") Sample.store Sample.alice ∧
  Sample.entry2 ∈ entries Sample.store ∧
  e_user_id Sample.entry2 = u_id Sample.alice ∧
  Fetch Sample.the_fetcher "http://example.com" = inr (ErrFetch "connection refused") ∧
  r.1 = Err (ErrFetch "connection refused") ∧
  sql_select_entry 2 Sample.store = [("", "", "", "")] ∧
  sql_select_entry 2 (w_db r.2) = [("hi", "http://example.com", "", "")] ∧
  sql_select_entry 2 (w_db r.2) ≠ sql_select_entry 2 Sample.store.
Proof.
  split; [apply sample_alice_authenticated|].
  split; [compute_done|].
  repeat split; try (vm_compute; reflexivity).
  vm_compute. discriminate.
Qed.

(** ** SignIn *)

Lemma SignIn_new_user s jwt a d :
  VerifyIDToken (s_verifier s) jwt = Some a →
  filter (has_identity (AuthProvider a) (AuthUID a)) (users d) = [] →
  SignIn s (pb.MkSignInRequest jwt) (World d []) =
  (Ok pb.MkEmpty,
   World (sql_insert_user (Name a) (AuthUID a) (AuthProvider a) (IconURL a) d).1 []).
Proof.
  intros Hver Hnone. unfold SignIn. simpl. rewrite Hver. run. simpl.
  unfold go_call. rewrite QueryRow_healthy. unfold sql_select_user_id_by_auth.
  rewrite Hnone. simpl. unfold defer. by rewrite Exec_healthy.
Qed.

Lemma SignIn_known_user s jwt a d u us :
  VerifyIDToken (s_verifier s) jwt = Some a →
  filter (has_identity (AuthProvider a) (AuthUID a)) (users d) = u :: us →
  SignIn s (pb.MkSignInRequest jwt) (World d []) =
  (Ok pb.MkEmpty, World (sql_update_user_icon (IconURL a) (u_id u) d).1 []).
Proof.
  intros Hver Hsome. unfold SignIn. simpl. rewrite Hver. run. simpl.
  unfold go_call. rewrite QueryRow_healthy. unfold sql_select_user_id_by_auth.
  rewrite Hsome. simpl. unfold defer. by rewrite Exec_healthy.
Qed.

Lemma identity_columns_with_icon icon id r :
  identity_columns (with_icon icon id r) = identity_columns r.
Proof. unfold with_icon. by destruct (decide _). Qed.

Lemma has_identity_with_icon p uid icon id r :
  has_identity p uid (with_icon icon id r) ↔ has_identity p uid r.
Proof. unfold with_icon. by destruct (decide _). Qed.

Lemma filter_fmap_stable {A} (P : A → Prop) `{!∀ x, Decision (P x)} (f : A → A) (l : list A) :
  (∀ x, P (f x) ↔ P x) → filter P (f <$> l) = f <$> filter P l.
Proof.
  intros HP. induction l as [|x l IH]; [done|].
  rewrite fmap_cons. destruct (decide (P x)) as [Hx|Hx].
  - rewrite (filter_cons_True P x) by done.
    rewrite filter_cons_True by by apply HP. by rewrite fmap_cons, IH.
  - rewrite (filter_cons_False P x) by done.
    rewrite filter_cons_False by by rewrite HP. done.
Qed.

(** An identity that is a key selects at most one user. *)
Lemma identity_key_filter l p uid :
  NoDup ((λ r, (u_auth_provider r, u_auth_uid r)) <$> l) →
  filter (has_identity p uid) l = [] ∨ ∃ u, filter (has_identity p uid) l = [u].
Proof.
  induction l as [|y l IH]; intros Hnd; [by left|].
  rewrite fmap_cons in Hnd. apply NoDup_cons in Hnd as [Hy Hnd].
  destruct (decide (has_identity p uid y)) as [Hid|Hid].
  - right. exists y. rewrite filter_cons_True by done. f_equal.
    apply filter_none. intros r Hr [Hp Hu]. apply Hy.
    destruct Hid as [<- <-]. rewrite <- Hp, <- Hu.
    by apply (list_elem_of_fmap_2 (λ r, (u_auth_provider r, u_auth_uid r))).
  - rewrite filter_cons_False by done. by apply IH.
Qed.

(** Sign-in maintains the identity key: a row is inserted only for an
    identity that has none, and the icon update leaves identities
    alone. *)
Lemma SignIn_keeps_identity_key s jwt a w :
  healthy w →
  users_identity_key (w_db w) →
  VerifyIDToken (s_verifier s) jwt = Some a →
  users_identity_key (w_db (SignIn s (pb.MkSignInRequest jwt) w).2).
Proof.
  intros Hw Hkey Hver. rewrite (healthy_world w Hw).
  destruct w as [d fs]. simpl in *. clear Hw fs. unfold users_identity_key in *.
  destruct (filter (has_identity (AuthProvider a) (AuthUID a)) (users d))
    as [|u us] eqn:Hf.
  - rewrite (SignIn_new_user _ _ _ _ Hver Hf). simpl. rewrite fmap_app.
    apply NoDup_app. split; [done|]. split; [|apply NoDup_singleton].
    intros pr Hpr Hnew. apply list_elem_of_singleton in Hnew. subst pr.
    apply list_elem_of_fmap in Hpr as (r & Hr & Hin). simpl in Hr.
    eapply (filter_nil_not_elem_of _ _ r Hf); [|done].
    split; congruence.
  - rewrite (SignIn_known_user _ _ _ _ _ _ Hver Hf). simpl.
    rewrite <- list_fmap_compose.
    rewrite (fmap_ext_elem_of _ (λ r, (u_auth_provider r, u_auth_uid r))); [done|].
    intros r _. simpl. unfold with_icon. by destruct (decide _).
Qed.

(** C5: two sign-ins in a row with the same verified identity both
    succeed and leave exactly one user row of that identity; its icon
    is the one of the second sign-in, and the id, name and identity of
    every row that was there before are as they were. *)
Theorem SignIn_twice s jwt1 jwt2 a1 a2 w :
  healthy w →
  users_identity_key (w_db w) →
  VerifyIDToken (s_verifier s) jwt1 = Some a1 →
  VerifyIDToken (s_verifier s) jwt2 = Some a2 →
  AuthProvider a2 = AuthProvider a1 →
  AuthUID a2 = AuthUID a1 →
  ∃ w1 w2 u,
    SignIn s (pb.MkSignInRequest jwt1) w = (Ok pb.MkEmpty, w1) ∧
    SignIn s (pb.MkSignInRequest jwt2) w1 = (Ok pb.MkEmpty, w2) ∧
    filter (has_identity (AuthProvider a1) (AuthUID a1)) (users (w_db w2)) = [u] ∧
    u_icon_url u = IconURL a2 ∧
    identity_columns <$> users (w_db w) `prefix_of` identity_columns <$> users (w_db w2).
Proof.
  intros Hw Hkey Hv1 Hv2 Hp Hu. rewrite (healthy_world w Hw).
  destruct w as [d fs]. simpl in *. clear Hw fs.
  destruct (identity_key_filter (users d) (AuthProvider a1) (AuthUID a1) Hkey)
    as [Hnone|[u0 Hone]].
  - set (new := UsersRow (users_seq d) (Name a1) (AuthUID a1) (AuthProvider a1) (IconURL a1)).
    set (d1 := (sql_insert_user (Name a1) (AuthUID a1) (AuthProvider a1) (IconURL a1) d).1).
    assert (Hf1 : filter (has_identity (AuthProvider a2) (AuthUID a2)) (users d1) = [new]).
    { rewrite Hp, Hu. simpl. rewrite filter_app, Hnone. simpl.
      by rewrite filter_cons_True. }
    eexists _, _, (with_icon (IconURL a2) (u_id new) new).
    split; [by apply SignIn_new_user|].
    split; [by eapply SignIn_known_user|].
    simpl. fold (with_icon (IconURL a2) (users_seq d)).
    rewrite filter_fmap_stable by apply has_identity_with_icon.
    rewrite filter_app, Hnone. simpl. rewrite filter_cons_True by done.
    split; [done|]. split; [unfold with_icon; simpl; by rewrite decide_True|].
    rewrite <- list_fmap_compose.
    rewrite (fmap_ext_elem_of (identity_columns ∘ _) identity_columns)
      by (intros; apply identity_columns_with_icon).
    rewrite fmap_app. by apply prefix_app_r.
  - set (d1 := (sql_update_user_icon (IconURL a1) (u_id u0) d).1).
    assert (Hf1 : filter (has_identity (AuthProvider a2) (AuthUID a2)) (users d1)
                  = [with_icon (IconURL a1) (u_id u0) u0]).
    { rewrite Hp, Hu. simpl. fold (with_icon (IconURL a1) (u_id u0)).
      rewrite filter_fmap_stable by apply has_identity_with_icon. by rewrite Hone. }
    eexists _, _, _.
    split; [by eapply SignIn_known_user|].
    split; [by eapply SignIn_known_user|].
    simpl. fold (with_icon (IconURL a1) (u_id u0)).
    match goal with |- context [(?f <$> (with_icon _ _ <$> users d))] =>
      change f with (with_icon (IconURL a2) (u_id (with_icon (IconURL a1) (u_id u0) u0))) end.
    rewrite !filter_fmap_stable by apply has_identity_with_icon. rewrite Hone.
    split; [done|]. split.
    + unfold with_icon at 1. rewrite decide_True by done. done.
    + rewrite <- !list_fmap_compose.
      rewrite (fmap_ext_elem_of (identity_columns ∘ _ ∘ _) identity_columns); [done|].
      intros x _. simpl. by rewrite !identity_columns_with_icon.
Qed.

(** On the sample store: Carol signs in for the first time, then
    again with a new icon. *)
Lemma SignIn_twice_witness :
  ∃ w1 w2 u,
    SignIn Sample.service (pb.MkSignInRequest "carol-token") (World Sample.store [])
      = (Ok pb.MkEmpty, w1) ∧
    SignIn Sample.service (pb.MkSignInRequest "carol-token-2") w1 = (Ok pb.MkEmpty, w2) ∧
    filter (has_identity "github" "c1") (users (w_db w2)) = [u] ∧
    u_icon_url u = "carol2.png" ∧
    identity_columns <$> users Sample.store `prefix_of` identity_columns <$> users (w_db w2).
Proof.
  apply (SignIn_twice Sample.service "carol-token" "carol-token-2"
           (MkAuthResult "github" "c1" "Carol" "carol.png")
           (MkAuthResult "github" "c1" "Carol" "carol2.png")
           (World Sample.store [])).
  - reflexivity.
  - apply sample_store_keys.
  - reflexivity.
  - reflexivity.
  - reflexivity.
  - reflexivity.
Defined.

(** ** Joins under referential integrity *)

Lemma join_user_ref d uid :
  users_key d → uid ∈ u_id <$> users d →
  ∃ u, join_user uid d = [u] ∧ owner_of d uid = Some u.
Proof.
  intros Hkey Href. unfold owner_of, join_user.
  destruct (filter_key_ref u_id (users d) uid Hkey Href) as (u & _ & _ & ->).
  by exists u.
Qed.

Lemma join_calendar_ref d cid :
  calendars_key d → cid ∈ c_id <$> calendars d →
  ∃ c, join_calendar cid d = [c] ∧ calendar_of d cid = Some c.
Proof.
  intros Hkey Href. unfold calendar_of, join_calendar.
  destruct (filter_key_ref c_id (calendars d) cid Hkey Href) as (c & _ & _ & ->).
  by exists c.
Qed.

Lemma int32_small z : 0 ≤ z ≤ max_int32 → int32 z = z.
Proof. unfold int32, max_int32. intros Hz. rewrite Z.mod_small; lia. Qed.

(** ** GetCalendar *)

(** The rows of the [findEntries] query, scanned, are the views of the
    entries of the calendar. *)
Lemma find_entries_rows d cid (es : list entries_row) :
  users_key d →
  (∀ e, e ∈ es → e_user_id e ∈ u_id <$> users d) →
  (λ row : entries_row * users_row,
     pb.MkEntry (e_id row.1) (Some (pb.MkUser (u_id row.2) (u_name row.2) (u_icon_url row.2)))
                None (e_day row.1) (e_title row.1) (e_comment row.1) (e_url row.1)
                (e_image_url row.1)) <$>
    filter (λ r : entries_row * users_row, e_calendar_id r.1 = cid)
           (e ← es; u ← join_user (e_user_id e) d; [(e, u)])
  = entry_view d <$> filter (λ e, e_calendar_id e = cid) es.
Proof.
  intros Hkey. induction es as [|e es IH]; intros Href; [done|].
  rewrite bind_cons, filter_app, fmap_app, IH by (intros; apply Href; by right).
  destruct (join_user_ref d (e_user_id e) Hkey) as (u & -> & Hu); [apply Href; left|].
  simpl. rewrite filter_cons. unfold filter at 1. simpl.
  destruct (decide (e_calendar_id e = cid)) as [Hc|Hc].
  - rewrite filter_cons_True by done. rewrite fmap_cons. simpl. f_equal.
    unfold entry_view. by rewrite Hu.
  - by rewrite filter_cons_False by done.
Qed.

Lemma findEntries_healthy cid d :
  users_key d → (∀ e, e ∈ entries d → e_user_id e ∈ u_id <$> users d) →
  ∃ es, findEntries cid (World d []) = (Ok es, World d []) ∧
        Sorted (by_day pb.Entry_Day) es ∧
        es ≡ₚ entry_view d <$> filter (λ e, e_calendar_id e = cid) (entries d).
Proof.
  intros Hkey Href. unfold findEntries. run_bind. rewrite Query_healthy.
  unfold sql_find_entries. erewrite for_rows_append by (intros acc r; reflexivity).
  simpl.
  eexists. split; [reflexivity|]. split.
  - apply (Sorted_fmap _ (by_day (λ r : entries_row * users_row, e_day r.1))); [done|].
    apply (Sorted_merge_sort _).
  - rewrite merge_sort_Permutation. by rewrite find_entries_rows.
Qed.

(** C9: [GetCalendar] fails with [sql.ErrNoRows] when no calendar has
    the requested id; otherwise it returns the calendar of that id with
    the views of all entries of that calendar, in ascending order of
    day, and an entry count equal to the number of entries returned. *)
Theorem GetCalendar_spec s req w :
  healthy w →
  calendars_key (w_db w) →
  users_key (w_db w) →
  entries_owner_ref (w_db w) →
  Z.of_nat (length (entries (w_db w))) ≤ max_int32 →
  let id := pb.GetCalendarRequest_CalendarId req in
  (id ∉ c_id <$> calendars (w_db w) → GetCalendar s req w = (Err ErrNoRows, w)) ∧
  (∀ C, C ∈ calendars (w_db w) → c_id C = id →
     ∃ es,
       GetCalendar s req w =
       (Ok (pb.MkGetCalendarResponse
              (Some (pb.MkCalendar (c_id C) None (c_title C) (c_description C) (c_year C)
                                   (Z.of_nat (length es))))
              es), w) ∧
       Sorted (by_day pb.Entry_Day) es ∧
       es ≡ₚ entry_view (w_db w) <$> filter (λ e, e_calendar_id e = id) (entries (w_db w))).
Proof.
  intros Hw Hckey Hukey Href Hsize id. rewrite (healthy_world w Hw).
  destruct w as [d fs]. simpl in *. clear Hw fs. split.
  - intros Hnone. unfold GetCalendar. run. rewrite QueryRow_healthy.
    unfold sql_select_calendar. fold id. by rewrite filter_no_key.
  - intros C HC Hid.
    destruct (findEntries_healthy (c_id C) d Hukey (proj1 (Forall_forall _ _) Href)) as (es & Hfind & Hsorted & Hperm).
    exists es. rewrite <- Hid in *. split; [|done].
    unfold GetCalendar. run. rewrite QueryRow_healthy. unfold sql_select_calendar.
    fold id. rewrite <- Hid. rewrite (filter_key c_id _ C Hckey HC). simpl.
    rewrite Hfind. rewrite int32_small; [done|].
    split; [lia|]. rewrite Hperm, length_fmap.
    pose proof (length_filter (λ e, e_calendar_id e = c_id C) (entries d)). lia.
Qed.

(** On the sample store: calendar 1 and its two entries. *)
Lemma GetCalendar_spec_witness :
  ∃ es,
    GetCalendar Sample.service (pb.MkGetCalendarRequest 1) (World Sample.store [])
    = (Ok (pb.MkGetCalendarResponse
             (Some (pb.MkCalendar 1 None "Rocq" "Proofs a day" 2023 (Z.of_nat (length es))))
             es), World Sample.store []) ∧
    Sorted (by_day pb.Entry_Day) es ∧
    es ≡ₚ entry_view Sample.store <$>
          filter (λ e, e_calendar_id e = 1) (entries Sample.store).
Proof.
  apply (GetCalendar_spec Sample.service (pb.MkGetCalendarRequest 1) (World Sample.store []))
    with (C := Sample.advent).
  - reflexivity.
  - apply sample_store_keys.
  - apply sample_store_keys.
  - apply sample_store_refs.
  - simpl. unfold max_int32. lia.
  - compute_done.
  - reflexivity.
Defined.

(** ** ListEntries *)

(** The rows of the [ListEntries] query, scanned, are the snapshots of
    the listed entries. *)
Lemma list_entries_rows d U Y conditions (es : list entries_row) :
  users_key d → calendars_key d →
  (∀ e c, Forall (entries_condition_holds e c) conditions ↔
          e_user_id e = U ∧ (Y ≠ 0 → c_year c = Y)) →
  (∀ e, e ∈ es → e_user_id e ∈ u_id <$> users d) →
  (λ row : entries_row * calendars_row * users_row,
     pb.MkEntry (e_id row.1.1)
                (Some (pb.MkUser (u_id row.2) (u_name row.2) (u_icon_url row.2)))
                (Some (pb.MkCalendar (c_id row.1.2) None (c_title row.1.2)
                                     (c_description row.1.2) 0 0))
                (e_day row.1.1) (e_title row.1.1) (e_comment row.1.1) (e_url row.1.1)
                (e_image_url row.1.1)) <$>
    filter (λ r : entries_row * calendars_row * users_row,
              Forall (entries_condition_holds r.1.1 r.1.2) conditions)
           (e ← es; u ← join_user (e_user_id e) d; c ← join_calendar (e_calendar_id e) d;
            [(e, c, u)])
  = entry_snapshot d <$> filter (listed_entry d U Y) es.
Proof.
  intros Hukey Hckey Hconds. induction es as [|e es IH]; intros Hu; [done|].
  rewrite bind_cons, filter_app, fmap_app, IH by (intros e' He'; apply Hu; by right).
  destruct (join_user_ref d (e_user_id e) Hukey) as (u & -> & Hou); [apply Hu; left|].
  destruct (decide (e_calendar_id e ∈ c_id <$> calendars d)) as [Hcal|Hcal].
  - destruct (join_calendar_ref d (e_calendar_id e) Hckey Hcal) as (c & -> & Hoc).
    simpl.
    assert (Hiff : Forall (entries_condition_holds e c) conditions ↔ listed_entry d U Y e).
    { rewrite Hconds. unfold listed_entry. by rewrite Hoc. }
    destruct (decide (listed_entry d U Y e)) as [Hl|Hl].
    + rewrite (filter_cons_True (listed_entry d U Y)) by done.
      rewrite filter_cons_True by (simpl; by apply Hiff).
      rewrite fmap_cons. simpl. f_equal. unfold entry_snapshot. by rewrite Hou, Hoc.
    + rewrite (filter_cons_False (listed_entry d U Y)) by done.
      rewrite filter_cons_False by (simpl; by rewrite Hiff). done.
  - unfold join_calendar at 1. rewrite (filter_no_key c_id _ _ Hcal). simpl.
    rewrite filter_cons_False; [done|]. intros [_ HY].
    unfold calendar_of in HY. by rewrite (filter_no_key c_id _ _ Hcal) in HY.
Qed.

(** C8: [ListEntries(U, Y)] returns the snapshots (entry, owner and
    calendar) of exactly the entries of user [U] whose calendar row
    exists and has year [Y], or of all entries of [U] whose calendar
    row exists when [Y] is zero, in ascending order of day. *)
Theorem ListEntries_spec s req w :
  healthy w →
  users_key (w_db w) →
  calendars_key (w_db w) →
  entries_owner_ref (w_db w) →
  ∃ es,
    ListEntries s req w = (Ok (pb.MkListEntriesResponse es), w) ∧
    Sorted (by_day pb.Entry_Day) es ∧
    es ≡ₚ entry_snapshot (w_db w) <$>
          filter (listed_entry (w_db w) (pb.ListEntriesRequest_UserId req)
                               (pb.ListEntriesRequest_Year req))
                 (entries (w_db w)).
Proof.
  intros Hw Hukey Hckey Hu. rewrite (healthy_world w Hw).
  destruct w as [d fs]. simpl in *. clear Hw fs.
  unfold ListEntries.
  set (conditions := if decide (pb.ListEntriesRequest_Year req ≠ 0) then _ else _).
  assert (Hconds : ∀ e c, Forall (entries_condition_holds e c) conditions ↔
            e_user_id e = pb.ListEntriesRequest_UserId req ∧
            (pb.ListEntriesRequest_Year req ≠ 0 → c_year c = pb.ListEntriesRequest_Year req)).
  { intros e c. subst conditions. destruct (decide _) as [Hy|Hy]; simpl.
    - rewrite !Forall_cons, Forall_nil. simpl. tauto.
    - rewrite Forall_cons, Forall_nil. simpl. tauto. }
  clearbody conditions. run_bind. unfold go_call. rewrite Query_healthy.
  unfold sql_list_entries. unfold defer. simpl. run_bind.
  erewrite (for_rows_append _ (λ row : entries_row * calendars_row * users_row,
     pb.MkEntry (e_id row.1.1)
                (Some (pb.MkUser (u_id row.2) (u_name row.2) (u_icon_url row.2)))
                (Some (pb.MkCalendar (c_id row.1.2) None (c_title row.1.2)
                                     (c_description row.1.2) 0 0))
                (e_day row.1.1) (e_title row.1.1) (e_comment row.1.1) (e_url row.1.1)
                (e_image_url row.1.1))) by (by intros acc [[re rc] ru]).
  simpl. eexists. split; [reflexivity|]. split.
  - apply (Sorted_fmap _ (by_day (λ r : entries_row * calendars_row * users_row,
                                    e_day r.1.1))); [done|].
    apply (Sorted_merge_sort _).
  - rewrite merge_sort_Permutation.
    by rewrite <- (list_entries_rows d _ _ conditions (entries d) Hukey Hckey Hconds
                  (proj1 (Forall_forall _ _) Hu)).
Qed.

(** On the sample store: the entries of user 1 in calendars of 2023,
    and all listed entries of user 1 once Bob has deleted calendar 3. *)
Lemma ListEntries_spec_witness :
  (∃ es,
     ListEntries Sample.service (pb.MkListEntriesRequest 1 2023) (World Sample.store [])
     = (Ok (pb.MkListEntriesResponse es), World Sample.store []) ∧
     Sorted (by_day pb.Entry_Day) es ∧
     es ≡ₚ entry_snapshot Sample.store <$>
           filter (listed_entry Sample.store 1 2023) (entries Sample.store)) ∧
  (let w1 := (DeleteCalendar Sample.service (Sample.bearer "bob-token")
                (pb.MkDeleteCalendarRequest 3) (World Sample.store [])).2 in
   ∃ es,
     ListEntries Sample.service (pb.MkListEntriesRequest 1 0) w1
     = (Ok (pb.MkListEntriesResponse es), w1) ∧
     Sorted (by_day pb.Entry_Day) es ∧
     es ≡ₚ entry_snapshot (w_db w1) <$>
           filter (listed_entry (w_db w1) 1 0) (entries (w_db w1))).
Proof.
  split.
  - apply (ListEntries_spec Sample.service (pb.MkListEntriesRequest 1 2023)
             (World Sample.store [])).
    + reflexivity.
    + apply sample_store_keys.
    + apply sample_store_keys.
    + apply sample_store_refs.
  - intros w1.
    apply (ListEntries_spec Sample.service (pb.MkListEntriesRequest 1 0) w1).
    + reflexivity.
    + unfold users_key. compute_done.
    + unfold calendars_key. compute_done.
    + unfold entries_owner_ref. compute_done.
Defined.

(** C8, as first stated, fails for year 0: once Bob has deleted his
    calendar 3 the world is healthy and the store keeps its integrity,
    entry 4 of user 1 is still stored, yet [ListEntries(1, 0)] lists
    entries 3 and 2 only, which are not all entries of user 1. *)
Lemma ListEntries_year_zero_misses_entries :
  let w1 := (DeleteCalendar Sample.service (Sample.bearer "bob-token")
               (pb.MkDeleteCalendarRequest 3) (World Sample.store [])).2 in
  let owned := filter (λ e, e_user_id e = 1) (entries (w_db w1)) in
  healthy w1 ∧
  store_integrity (w_db w1) ∧
  e_id <$> owned = [2; 3; 4] ∧
  ∃ es,
    ListEntries Sample.service (pb.MkListEntriesRequest 1 0) w1
    = (Ok (pb.MkListEntriesResponse es), w1) ∧
    pb.Entry_Id <$> es = [3; 2] ∧
    ¬ (es ≡ₚ entry_snapshot (w_db w1) <$> owned).
Proof.
  intros w1 owned. split; [reflexivity|]. split.
  { unfold store_integrity, counters_fresh, users_key, calendars_key, entries_key,
      users_identity_key, calendars_owner_ref, entries_owner_ref.
    split_and!; compute_done. }
  split; [reflexivity|].
  exists (pb.ListEntriesResponse_Entries
            (match (ListEntries Sample.service (pb.MkListEntriesRequest 1 0) w1).1 with
             | Ok resp => resp
             | _ => pb.MkListEntriesResponse []
             end)).
  split; [vm_compute; reflexivity|]. split; [vm_compute; reflexivity|].
  intros Hperm. apply Permutation_length in Hperm. vm_compute in Hperm. discriminate.
Qed.

(** ** ListCalendars *)

(** The counting loop of [bindEntryCount] stores every scanned row. *)
Lemma for_rows_entry_counts (rows : list (Z * Z)) (m0 : gmap Z Z) w :
  Forall (λ row, min_int32 ≤ row.2 ≤ max_int32) rows →
  for_rows rows m0 (λ entryCounts row,
    let cid := row.1 in
    count ← scan_int32 row.2;
    mret (<[cid := count]> entryCounts)) w
  = (Ok (foldl (λ m row, <[row.1 := row.2]> m) m0 rows), w).
Proof.
  intros Hrows. revert m0. induction Hrows as [|row rows Hrow _ IH]; intros m0; [done|].
  simpl. unfold scan_int32. rewrite decide_True by done. run. apply IH.
Qed.

Lemma entry_counts_lookup (f : Z → Z) (ks : list Z) (m0 : gmap Z Z) (k : Z) :
  foldl (λ m row, <[row.1 := row.2]> m) m0 ((λ cid, (cid, f cid)) <$> ks) !! k
  = if decide (k ∈ ks) then Some (f k) else m0 !! k.
Proof.
  revert m0. induction ks as [|a ks IH]; intros m0.
  - rewrite decide_False; [done|]. apply not_elem_of_nil.
  - rewrite fmap_cons. simpl (foldl _ _ _). rewrite IH. destruct (decide (k ∈ ks)) as [Hin|Hin].
    + rewrite decide_True; [done|]. by right.
    + rewrite lookup_insert. destruct (decide (a = k)) as [->|Hne].
      * rewrite decide_True; [done|]. left.
      * rewrite decide_False; [done|]. rewrite elem_of_cons. by intros [?|?].
Qed.

Lemma bindEntryCount_healthy (cs : list pb.Calendar) d :
  cs ≠ [] →
  Z.of_nat (length (entries d)) ≤ max_int32 →
  bindEntryCount cs (World d []) =
  (Ok ((λ c, pb.MkCalendar (pb.Calendar_Id c) (pb.Calendar_Owner c) (pb.Calendar_Title c)
               (pb.Calendar_Description c) (pb.Calendar_Year c)
               (Z.of_nat (length (filter (λ e, e_calendar_id e = pb.Calendar_Id c)
                                         (entries d))))) <$> cs),
   World d []).
Proof.
  intros Hne Hsize. unfold bindEntryCount. run_bind. rewrite Query_healthy.
  unfold sql_count_entries.
  destruct (pb.Calendar_Id <$> cs) as [|i ids] eqn:Hids.
  { by apply fmap_nil_inv in Hids. }
  rewrite <- Hids. clear i ids Hids.
  set (selected := filter (λ e, e_calendar_id e ∈ pb.Calendar_Id <$> cs) (entries d)).
  rewrite for_rows_entry_counts.
  2:{ apply Forall_fmap, Forall_forall. intros cid _. simpl.
      pose proof (length_filter (λ e, e_calendar_id e = cid) selected) as Hle1.
      pose proof (length_filter (λ e, e_calendar_id e ∈ pb.Calendar_Id <$> cs) (entries d))
        as Hle2.
      fold selected in Hle2. unfold min_int32, max_int32 in *. lia. }
  unfold mret, M_ret. f_equal. f_equal. apply fmap_ext_elem_of. intros c Hc.
  f_equal.
  rewrite (entry_counts_lookup
             (λ cid, Z.of_nat (length (filter (λ e, e_calendar_id e = cid) selected)))).
  assert (Hsel : filter (λ e, e_calendar_id e = pb.Calendar_Id c) selected
                 = filter (λ e, e_calendar_id e = pb.Calendar_Id c) (entries d)).
  { unfold selected. apply list_filter_filter_l. intros e ->.
    by apply list_elem_of_fmap_2. }
  destruct (decide _) as [Hin|Hin]; simpl.
  - by rewrite Hsel.
  - rewrite <- Hsel. rewrite filter_none; [done|].
    intros e He Heq. apply Hin. apply elem_of_remove_dups. rewrite <- Heq.
    by apply list_elem_of_fmap_2.
Qed.

(** The rows of the [ListCalendars] query by year, scanned and bound
    to their entry counts, are the views of the calendars of that
    year. *)
Lemma list_calendars_rows (sql_like : string → string → bool) d Y (cs : list calendars_row) :
  users_key d →
  (∀ c, c ∈ cs → c_user_id c ∈ u_id <$> users d) →
  (λ row : calendars_row * users_row,
     pb.MkCalendar (c_id row.1)
       (Some (pb.MkUser (u_id row.2) (u_name row.2) (u_icon_url row.2)))
       (c_title row.1) (c_description row.1) (c_year row.1)
       (Z.of_nat (length (filter (λ e, e_calendar_id e = c_id row.1) (entries d))))) <$>
    filter (λ r : calendars_row * users_row,
              Forall (calendars_condition_holds sql_like r.1) [c_year_eq Y])
           (c ← cs; u ← join_user (c_user_id c) d; [(c, u)])
  = calendar_view d <$> filter (λ c, c_year c = Y) cs.
Proof.
  intros Hkey. induction cs as [|c cs IH]; intros Href; [done|].
  rewrite bind_cons, filter_app, fmap_app, IH by (intros c' Hc'; apply Href; by right).
  destruct (join_user_ref d (c_user_id c) Hkey) as (u & -> & Hu); [apply Href; left|].
  simpl.
  assert (Hiff : Forall (calendars_condition_holds sql_like c) [c_year_eq Y] ↔ c_year c = Y).
  { rewrite Forall_cons, Forall_nil. simpl. tauto. }
  destruct (decide (c_year c = Y)) as [Hy|Hy].
  - rewrite (filter_cons_True (λ c, c_year c = Y)) by done.
    rewrite filter_cons_True by (simpl; by apply Hiff).
    rewrite fmap_cons. simpl. f_equal. unfold calendar_view. by rewrite Hu.
  - rewrite (filter_cons_False (λ c, c_year c = Y)) by done.
    rewrite filter_cons_False by (simpl; by rewrite Hiff). done.
Qed.

(** Without a calendar of the year, the query selects no row. *)
Lemma list_calendars_rows_none (sql_like : string → string → bool) d Y :
  filter (λ c, c_year c = Y) (calendars d) = [] →
  sql_list_calendars sql_like [c_year_eq Y] None d = Some [].
Proof.
  intros Hnone. unfold sql_list_calendars. rewrite filter_none; [done|].
  intros [c u] Hin Hall. simpl in Hall. apply Forall_cons in Hall as [Hy _]. simpl in Hy.
  apply list_elem_of_bind in Hin as (c' & Hin & Hc').
  apply list_elem_of_bind in Hin as (u' & Hin & _).
  apply list_elem_of_singleton in Hin. simplify_eq.
  by eapply (filter_nil_not_elem_of (λ c, c_year c = c_year c') _ c').
Qed.

(** C6: with no owner filter, no search string and no page size,
    [ListCalendars] returns the views of exactly the calendars of the
    requested year, each with its owner and the number of entries that
    reference it, in descending order of id; when no calendar has that
    year it answers after the single select, without the aggregate
    query. *)
Theorem ListCalendars_by_year sql_like s req w :
  pb.ListCalendarsRequest_UserId req = 0 →
  pb.ListCalendarsRequest_Query req = "" →
  pb.ListCalendarsRequest_PageSize req = 0 →
  (healthy w →
   users_key (w_db w) →
   calendars_owner_ref (w_db w) →
   Z.of_nat (length (entries (w_db w))) ≤ max_int32 →
   ∃ cs,
     ListCalendars sql_like s req w = (Ok (pb.MkListCalendarsResponse cs), w) ∧
     Sorted (by_id_desc pb.Calendar_Id) cs ∧
     cs ≡ₚ calendar_view (w_db w) <$>
           filter (λ c, c_year c = pb.ListCalendarsRequest_Year req) (calendars (w_db w))) ∧
  (∀ fs,
     w_faults w = false :: fs →
     filter (λ c, c_year c = pb.ListCalendarsRequest_Year req) (calendars (w_db w)) = [] →
     ListCalendars sql_like s req w
     = (Ok (pb.MkListCalendarsResponse []), World (w_db w) fs)).
Proof.
  intros HU HQ HP. unfold ListCalendars. rewrite HU, HQ, HP.
  destruct (decide (0 ≠ 0)) as [?|_]; [done|].
  destruct (decide ("" ≠ "")) as [?|_]; [done|].
  destruct w as [d fs0]. cbn [w_db w_faults]. split.
  - intros Hw Hkey Href Hsize. unfold healthy in Hw. simpl in Hw. subst fs0.
    run_bind. unfold go_call. rewrite Query_healthy. simpl. unfold defer. run_bind.
    simpl.
    erewrite for_rows_append by (intros acc r; reflexivity). simpl.
    set (rows := merge_sort _ _).
    set (scan := λ row : calendars_row * users_row, pb.MkCalendar _ _ _ _ _ 0).
    set (count := λ c : pb.Calendar,
           pb.MkCalendar (pb.Calendar_Id c) (pb.Calendar_Owner c) (pb.Calendar_Title c)
             (pb.Calendar_Description c) (pb.Calendar_Year c)
             (Z.of_nat (length (filter (λ e, e_calendar_id e = pb.Calendar_Id c)
                                       (entries d))))).
    assert (Hres : (if decide (length (scan <$> rows) ≠ 0%nat)
                    then bindEntryCount (scan <$> rows) else mret (scan <$> rows))
                   (World d []) = (Ok (count <$> (scan <$> rows)), World d [])).
    { destruct (decide _) as [Hlen|Hlen].
      - apply bindEntryCount_healthy; [|done]. intros Hnil. apply Hlen. by rewrite Hnil.
      - destruct (scan <$> rows); [done|]. by destruct Hlen. }
    rewrite Hres. exists (count <$> (scan <$> rows)).
    split; [done|]. rewrite <- list_fmap_compose. split.
    + apply (Sorted_fmap _ (by_id_desc (λ r : calendars_row * users_row, c_id r.1))); [done|].
      apply (Sorted_merge_sort _).
    + unfold rows. rewrite merge_sort_Permutation.
      by rewrite <- (list_calendars_rows sql_like d _ (calendars d) Hkey
                     (proj1 (Forall_forall _ _) Href)).
  - intros fs [= ->] Hnone. run_bind. unfold go_call, Query. run_bind.
    cbn [round_trip get_db w_db w_faults].
    rewrite (list_calendars_rows_none _ _ _ Hnone). reflexivity.
Qed.

(** On the sample store: the calendars of 2023. *)
Lemma ListCalendars_by_year_witness :
  ∃ cs,
    ListCalendars Sample.no_like Sample.service (pb.MkListCalendarsRequest 2023 0 "" 0)
      (World Sample.store [])
    = (Ok (pb.MkListCalendarsResponse cs), World Sample.store []) ∧
    Sorted (by_id_desc pb.Calendar_Id) cs ∧
    cs ≡ₚ calendar_view Sample.store <$>
          filter (λ c, c_year c = 2023) (calendars Sample.store).
Proof.
  apply (ListCalendars_by_year Sample.no_like Sample.service
           (pb.MkListCalendarsRequest 2023 0 "" 0) (World Sample.store [])
           eq_refl eq_refl eq_refl).
  - reflexivity.
  - apply sample_store_keys.
  - apply sample_store_refs.
  - simpl. unfold max_int32. lia.
Defined.

(** * Further properties of the handlers *)

(** ** Authentication *)

Lemma filter_ext_elem_of {A} (P Q : A → Prop) `{!∀ x, Decision (P x), !∀ x, Decision (Q x)}
    (l : list A) :
  (∀ x, x ∈ l → P x ↔ Q x) → filter P l = filter Q l.
Proof.
  induction l as [|y l IH]; intros HPQ; [done|].
  rewrite !filter_cons.
  rewrite IH by (intros x Hx; apply HPQ; by right).
  apply decide_ext. apply HPQ. left.
Qed.

Lemma filter_all {A} (P : A → Prop) `{!∀ x, Decision (P x)} (l : list A) :
  (∀ x, x ∈ l → P x) → filter P l = l.
Proof.
  induction l as [|y l IH]; intros HP; [done|].
  rewrite filter_cons_True by (apply HP; left).
  f_equal. apply IH. intros x Hx. apply HP. by right.
Qed.

(** X1: [getCurrentUser] fails without metadata, without an
    [authorization] value, and for a verified identity that has no
    user row; the last case answers [sql.ErrNoRows] and provisions
    nothing. *)
Theorem getCurrentUser_rejects s ctx w :
  (FromIncomingContext ctx = None → getCurrentUser s ctx w = (Err ErrNoMetadata, w)) ∧
  (∀ md, FromIncomingContext ctx = Some md → md_get md "authorization" = [] →
         getCurrentUser s ctx w = (Err ErrNoAuthorization, w)) ∧
  (∀ md tok rest a,
     healthy w →
     FromIncomingContext ctx = Some md →
     md !! "authorization" = Some (tok :: rest) →
     VerifyIDToken (s_verifier s) tok = Some a →
     filter (has_identity (AuthProvider a) (AuthUID a)) (users (w_db w)) = [] →
     getCurrentUser s ctx w = (Err ErrNoRows, w)).
Proof.
  split_and!.
  - intros Hmd. unfold getCurrentUser. by rewrite Hmd.
  - intros md Hmd Hnone. unfold getCurrentUser. by rewrite Hmd, Hnone.
  - intros md tok rest a Hw Hmd Hauth Hver Hnone. rewrite (healthy_world w Hw).
    unfold getCurrentUser, md_get. rewrite Hmd, Hauth. simpl. rewrite Hver. simpl.
    run. rewrite QueryRow_healthy. unfold sql_select_user_by_auth.
    destruct w as [d fs]. simpl in *. by rewrite Hnone.
Qed.

(** A request that bears the token of Carol, who has not signed in. *)
Lemma getCurrentUser_rejects_witness :
  getCurrentUser Sample.service (Sample.bearer "carol-token") (World Sample.store [])
  = (Err ErrNoRows, World Sample.store []).
Proof.
  apply (proj2 (proj2 (getCurrentUser_rejects Sample.service (Sample.bearer "carol-token")
                         (World Sample.store [])))
           {[ "authorization" := ["carol-token"] ]} "carol-token" []
           (MkAuthResult "github" "c1" "Carol" "carol.png")).
  - reflexivity.
  - reflexivity.
  - vm_compute. reflexivity.
  - reflexivity.
  - vm_compute. reflexivity.
Defined.

(** X2: the handlers that start with [getCurrentUser] and check its
    error return that error and do nothing else: the world is the one
    [getCurrentUser] left, whose store is the one before the call. *)
Theorem unauthenticated_handlers_stop now_year s ctx w e w'
    (r1 : pb.CreateCalendarRequest) (r2 : pb.UpdateCalendarRequest)
    (r3 : pb.CreateEntryRequest) (r4 : pb.UpdateEntryRequest) (r5 : pb.DeleteEntryRequest) :
  getCurrentUser s ctx w = (Err e, w') →
  w_db w' = w_db w ∧
  CreateCalendar now_year s ctx r1 w = (Err e, w') ∧
  UpdateCalendar s ctx r2 w = (Err e, w') ∧
  CreateEntry s ctx r3 w = (Err e, w') ∧
  UpdateEntry s ctx r4 w = (Err e, w') ∧
  DeleteEntry s ctx r5 w = (Err e, w').
Proof.
  intros Hcur. split.
  - pose proof (preserves_db_getCurrentUser s ctx w) as Hdb. by rewrite Hcur in Hdb.
  - unfold CreateCalendar, UpdateCalendar, CreateEntry, UpdateEntry, DeleteEntry.
    run_bind. by rewrite Hcur.
Qed.

(** An anonymous request on the sample store. *)
Lemma unauthenticated_handlers_stop_witness :
  let w := World Sample.store [] in
  w_db w = w_db w ∧
  CreateCalendar 2023 Sample.service Sample.anonymous
    (pb.MkCreateCalendarRequest "New" "calendar") w = (Err ErrNoAuthorization, w) ∧
  UpdateCalendar Sample.service Sample.anonymous
    (pb.MkUpdateCalendarRequest 1 "New" "title") w = (Err ErrNoAuthorization, w) ∧
  CreateEntry Sample.service Sample.anonymous
    (pb.MkCreateEntryRequest 1 7) w = (Err ErrNoAuthorization, w) ∧
  UpdateEntry Sample.service Sample.anonymous
    (pb.MkUpdateEntryRequest 2 "hi" "") w = (Err ErrNoAuthorization, w) ∧
  DeleteEntry Sample.service Sample.anonymous
    (pb.MkDeleteEntryRequest 2) w = (Err ErrNoAuthorization, w).
Proof.
  intros w.
  apply (unauthenticated_handlers_stop 2023 Sample.service Sample.anonymous w
           ErrNoAuthorization w).
  reflexivity.
Defined.

(** ** Calendars *)

Lemma DeleteCalendar_healthy s ctx req d u :
  authenticated s ctx d u →
  DeleteCalendar s ctx req (World d []) =
  (Ok pb.MkEmpty,
   World (sql_delete_calendar (pb.DeleteCalendarRequest_CalendarId req) (u_id u) d).1 []).
Proof.
  intros Hauth. unfold DeleteCalendar. run_bind. unfold go_call at 1.
  rewrite (getCurrentUser_authenticated _ _ _ _ Hauth). unfold go_call.
  rewrite Prepare_healthy. simpl. run_bind. unfold defer. simpl. reflexivity.
Qed.

(** X3: [DeleteCalendar] by the owner removes that calendar row and
    only that one; users and entries, including the entries of the
    deleted calendar, stay as they are. *)
Theorem DeleteCalendar_by_owner s ctx req w u C :
  healthy w →
  calendars_key (w_db w) →
  authenticated s ctx (w_db w) u →
  C ∈ calendars (w_db w) →
  c_id C = pb.DeleteCalendarRequest_CalendarId req →
  c_user_id C = u_id u →
  let r := DeleteCalendar s ctx req w in
  r.1 = Ok pb.MkEmpty ∧
  calendars (w_db r.2) = filter (λ c, c_id c ≠ c_id C) (calendars (w_db w)) ∧
  users (w_db r.2) = users (w_db w) ∧
  entries (w_db r.2) = entries (w_db w).
Proof.
  intros Hw Hkey Hauth HC Hid Hown r. subst r. rewrite (healthy_world w Hw).
  destruct w as [d fs]. simpl in *. clear Hw fs.
  rewrite (DeleteCalendar_healthy _ _ _ _ _ Hauth). simpl.
  split_and!; [done| |done..].
  apply filter_ext_elem_of. intros c Hc. split.
  - intros Hnot Heq. apply Hnot. rewrite <- Hid, <- Hown.
    by rewrite (key_inj c_id _ C c Hkey HC Hc Heq).
  - intros Hne [Heq _]. apply Hne. congruence.
Qed.

(** On the sample store: Bob deletes his calendar 3. *)
Lemma DeleteCalendar_by_owner_witness :
  let r := DeleteCalendar Sample.service (Sample.bearer "bob-token")
             (pb.MkDeleteCalendarRequest 3) (World Sample.store []) in
  r.1 = Ok pb.MkEmpty ∧
  calendars (w_db r.2) = filter (λ c, c_id c ≠ 3) (calendars Sample.store) ∧
  users (w_db r.2) = users Sample.store ∧
  entries (w_db r.2) = entries Sample.store.
Proof.
  apply (DeleteCalendar_by_owner Sample.service (Sample.bearer "bob-token")
           (pb.MkDeleteCalendarRequest 3) (World Sample.store []) Sample.bob Sample.older).
  - reflexivity.
  - apply sample_store_keys.
  - exists {[ "authorization" := ["bob-token"] ]}, "bob-token", [],
           (MkAuthResult "github" "b1" "Bob" "bob.png").
    repeat split; vm_compute; reflexivity.
  - compute_done.
  - reflexivity.
  - reflexivity.
Defined.

(** X4: [DeleteCalendar] for an id that names no calendar of the
    caller (no such calendar, or one of another owner) succeeds and
    changes nothing. *)
Theorem DeleteCalendar_not_owner s ctx req w u :
  healthy w →
  authenticated s ctx (w_db w) u →
  (∀ c, c ∈ calendars (w_db w) →
        c_id c = pb.DeleteCalendarRequest_CalendarId req → c_user_id c ≠ u_id u) →
  DeleteCalendar s ctx req w = (Ok pb.MkEmpty, w).
Proof.
  intros Hw Hauth Hnone. rewrite (healthy_world w Hw).
  destruct w as [d fs]. simpl in *. clear Hw fs.
  rewrite (DeleteCalendar_healthy _ _ _ _ _ Hauth). simpl. do 2 f_equal.
  assert (Hsame : filter (λ c, ¬ (c_id c = pb.DeleteCalendarRequest_CalendarId req
                                  ∧ c_user_id c = u_id u)) (calendars d) = calendars d).
  { apply filter_all. intros c Hc [Hid Hown]. by apply (Hnone c Hc Hid). }
  rewrite Hsame. by destruct d.
Qed.

(** On the sample store: Alice deletes calendar 2, which is Bob's. *)
Lemma DeleteCalendar_not_owner_witness :
  DeleteCalendar Sample.service (Sample.bearer "alice-token")
    (pb.MkDeleteCalendarRequest 2) (World Sample.store [])
  = (Ok pb.MkEmpty, World Sample.store []).
Proof.
  apply (DeleteCalendar_not_owner Sample.service (Sample.bearer "alice-token")
           (pb.MkDeleteCalendarRequest 2) (World Sample.store []) Sample.alice).
  - reflexivity.
  - apply sample_alice_authenticated.
  - apply (Forall_forall (λ c, c_id c = 2 → c_user_id c ≠ 1)). compute_done.
Defined.

(** X5: [UpdateCalendar] by the owner writes the title and the
    description of that calendar and nothing else, and answers with
    the row as it is stored afterwards. *)
Theorem UpdateCalendar_by_owner s ctx req w u C :
  healthy w →
  calendars_key (w_db w) →
  authenticated s ctx (w_db w) u →
  C ∈ calendars (w_db w) →
  c_id C = pb.UpdateCalendarRequest_CalendarId req →
  c_user_id C = u_id u →
  let r := UpdateCalendar s ctx req w in
  let C' := CalendarsRow (c_id C) (c_user_id C) (pb.UpdateCalendarRequest_Title req)
                         (pb.UpdateCalendarRequest_Description req) (c_year C) in
  r.1 = Ok (pb.MkCalendar (c_id C) None (pb.UpdateCalendarRequest_Title req)
                          (pb.UpdateCalendarRequest_Description req) (c_year C) 0) ∧
  calendars (w_db r.2) = (λ c, if decide (c_id c = c_id C) then C' else c)
                           <$> calendars (w_db w) ∧
  users (w_db r.2) = users (w_db w) ∧
  entries (w_db r.2) = entries (w_db w).
Proof.
  intros Hw Hkey Hauth HC Hid Hown r C'. subst r. rewrite (healthy_world w Hw).
  destruct w as [d fs]. simpl in *. clear Hw fs.
  unfold UpdateCalendar. run.
  rewrite (getCurrentUser_authenticated _ _ _ _ Hauth). simpl.
  unfold defer. rewrite Exec_healthy. simpl.
  assert (Hmap : (λ r, if decide (c_id r = pb.UpdateCalendarRequest_CalendarId req
                                  ∧ c_user_id r = u_id u)
                       then CalendarsRow (c_id r) (c_user_id r)
                              (pb.UpdateCalendarRequest_Title req)
                              (pb.UpdateCalendarRequest_Description req) (c_year r)
                       else r) <$> calendars d
                 = (λ c, if decide (c_id c = c_id C) then C' else c) <$> calendars d).
  { apply fmap_ext_elem_of. intros c Hc.
    destruct (decide (c_id c = c_id C)) as [Heq|Hne].
    - apply (key_inj c_id _ C c Hkey HC Hc) in Heq. subst c.
      by rewrite decide_True.
    - rewrite decide_False; [done|]. intros [? _]. apply Hne. congruence. }
  rewrite Hmap. rewrite QueryRow_healthy. unfold sql_select_calendar. simpl.
  assert (Hread : filter (λ r, c_id r = pb.UpdateCalendarRequest_CalendarId req)
                    ((λ c, if decide (c_id c = c_id C) then C' else c) <$> calendars d)
                  = [C']).
  { rewrite <- Hid.
    rewrite (filter_fmap_stable (λ r, c_id r = c_id C)).
    - rewrite (filter_key c_id _ C Hkey HC). simpl. by rewrite decide_True.
    - intros c. destruct (decide (c_id c = c_id C)) as [Heq|Hne]; simpl; [|done].
      split; [by intros _|done]. }
  rewrite Hread. done.
Qed.

(** On the sample store: Bob renames his calendar 2. *)
Lemma UpdateCalendar_by_owner_witness :
  let r := UpdateCalendar Sample.service (Sample.bearer "bob-token")
             (pb.MkUpdateCalendarRequest 2 "Golang" "Gophers everywhere")
             (World Sample.store []) in
  r.1 = Ok (pb.MkCalendar 2 None "Golang" "Gophers everywhere" 2023 0) ∧
  calendars (w_db r.2) =
    (λ c, if decide (c_id c = 2)
          then CalendarsRow 2 2 "Golang" "Gophers everywhere" 2023 else c)
      <$> calendars Sample.store ∧
  users (w_db r.2) = users Sample.store ∧
  entries (w_db r.2) = entries Sample.store.
Proof.
  apply (UpdateCalendar_by_owner Sample.service (Sample.bearer "bob-token")
           (pb.MkUpdateCalendarRequest 2 "Golang" "Gophers everywhere")
           (World Sample.store []) Sample.bob Sample.golang).
  - reflexivity.
  - apply sample_store_keys.
  - exists {[ "authorization" := ["bob-token"] ]}, "bob-token", [],
           (MkAuthResult "github" "b1" "Bob" "bob.png").
    repeat split; vm_compute; reflexivity.
  - compute_done.
  - reflexivity.
  - reflexivity.
Defined.

(** X6: [UpdateCalendar] for an id that names no calendar fails with
    [sql.ErrNoRows] at the re-read, and nothing is written. *)
Theorem UpdateCalendar_missing s ctx req w u :
  healthy w →
  authenticated s ctx (w_db w) u →
  pb.UpdateCalendarRequest_CalendarId req ∉ c_id <$> calendars (w_db w) →
  UpdateCalendar s ctx req w = (Err ErrNoRows, w).
Proof.
  intros Hw Hauth Hnone. rewrite (healthy_world w Hw).
  destruct w as [d fs]. simpl in *. clear Hw fs.
  unfold UpdateCalendar. run.
  rewrite (getCurrentUser_authenticated _ _ _ _ Hauth). simpl.
  unfold defer. rewrite Exec_healthy. simpl.
  assert (Hsame : (λ r, if decide (c_id r = pb.UpdateCalendarRequest_CalendarId req
                                   ∧ c_user_id r = u_id u)
                        then CalendarsRow (c_id r) (c_user_id r)
                               (pb.UpdateCalendarRequest_Title req)
                               (pb.UpdateCalendarRequest_Description req) (c_year r)
                        else r) <$> calendars d = calendars d).
  { rewrite <- (list_fmap_id (calendars d)) at 2. apply fmap_ext_elem_of.
    intros c Hc. rewrite decide_False; [done|]. intros [Heq _]. apply Hnone.
    rewrite <- Heq. by apply list_elem_of_fmap_2. }
  rewrite Hsame.
  replace (Database (users d) (calendars d) (entries d) (users_seq d)
                    (calendars_seq d) (entries_seq d)) with d by by destruct d.
  rewrite QueryRow_healthy. unfold sql_select_calendar.
  by rewrite (filter_no_key c_id _ _ Hnone).
Qed.

(** On the sample store: Alice updates calendar 9, which does not
    exist. *)
Lemma UpdateCalendar_missing_witness :
  UpdateCalendar Sample.service (Sample.bearer "alice-token")
    (pb.MkUpdateCalendarRequest 9 "No" "calendar") (World Sample.store [])
  = (Err ErrNoRows, World Sample.store []).
Proof.
  apply (UpdateCalendar_missing Sample.service (Sample.bearer "alice-token")
           (pb.MkUpdateCalendarRequest 9 "No" "calendar") (World Sample.store [])
           Sample.alice).
  - reflexivity.
  - apply sample_alice_authenticated.
  - compute_done.
Defined.

Lemma authenticated_users_only s ctx d d' u :
  users d' = users d → authenticated s ctx d u → authenticated s ctx d' u.
Proof.
  intros Husers (md & tok & rest & a & Hmd & Hauth & Hver & Hrow).
  exists md, tok, rest, a. by rewrite Husers.
Qed.

Lemma CreateCalendar_healthy now_year s ctx req d u :
  authenticated s ctx d u →
  let d' := (sql_insert_calendar (u_id u) (pb.CreateCalendarRequest_Title req)
               (pb.CreateCalendarRequest_Description req) now_year d).1 in
  CreateCalendar now_year s ctx req (World d []) =
  (match sql_select_calendar (calendars_seq d) d' with
   | c :: _ => Ok (pb.MkCalendar (calendar_ID c) None (calendar_Title c)
                                 (calendar_Description c) (calendar_Year c) 0)
   | [] => Err ErrNoRows
   end, World d' []).
Proof.
  intros Hauth d'. unfold CreateCalendar. run.
  rewrite (getCurrentUser_authenticated _ _ _ _ Hauth). simpl.
  unfold defer. rewrite Exec_healthy. simpl. unfold Result_LastInsertId. run.
  rewrite QueryRow_healthy. subst d'. simpl.
  by destruct (sql_select_calendar _ _).
Qed.

Lemma filter_fresh {A} (key : A → Z) (l : list A) (next : Z) :
  Forall (λ r, key r < next) l → filter (λ r, key r = next) l = [].
Proof.
  intros Hfresh. apply filter_none. intros r Hr Heq.
  apply (proj1 (Forall_forall _ _) Hfresh) in Hr. simpl in Hr. lia.
Qed.

(** X7: [CreateCalendar] appends one calendar row, owned by the
    caller and dated with the current year, under the next calendar
    id, and answers with that row as stored. *)
Theorem CreateCalendar_inserts now_year s ctx req w u :
  healthy w →
  authenticated s ctx (w_db w) u →
  Forall (λ c, c_id c < calendars_seq (w_db w)) (calendars (w_db w)) →
  let d := w_db w in
  let r := CreateCalendar now_year s ctx req w in
  r.1 = Ok (pb.MkCalendar (calendars_seq d) None (pb.CreateCalendarRequest_Title req)
                          (pb.CreateCalendarRequest_Description req) now_year 0) ∧
  calendars (w_db r.2) =
    calendars d ++ [CalendarsRow (calendars_seq d) (u_id u)
                                 (pb.CreateCalendarRequest_Title req)
                                 (pb.CreateCalendarRequest_Description req) now_year] ∧
  calendars_seq (w_db r.2) = calendars_seq d + 1 ∧
  users (w_db r.2) = users d ∧
  entries (w_db r.2) = entries d.
Proof.
  intros Hw Hauth Hfresh d r. subst d r. rewrite (healthy_world w Hw).
  destruct w as [d fs]. simpl in *. clear Hw fs.
  rewrite (CreateCalendar_healthy _ _ _ _ _ _ Hauth). simpl.
  unfold sql_select_calendar. simpl. rewrite filter_app.
  rewrite (filter_fresh c_id _ _ Hfresh). simpl.
  rewrite filter_cons_True by done. done.
Qed.

(** On the sample store: Alice creates a calendar in 2024. *)
Lemma CreateCalendar_inserts_witness :
  let r := CreateCalendar 2024 Sample.service (Sample.bearer "alice-token")
             (pb.MkCreateCalendarRequest "Iris" "Separation") (World Sample.store []) in
  r.1 = Ok (pb.MkCalendar 4 None "Iris" "Separation" 2024 0) ∧
  calendars (w_db r.2) =
    calendars Sample.store ++ [CalendarsRow 4 1 "Iris" "Separation" 2024] ∧
  calendars_seq (w_db r.2) = 5 ∧
  users (w_db r.2) = users Sample.store ∧
  entries (w_db r.2) = entries Sample.store.
Proof.
  apply (CreateCalendar_inserts 2024 Sample.service (Sample.bearer "alice-token")
           (pb.MkCreateCalendarRequest "Iris" "Separation") (World Sample.store [])
           Sample.alice).
  - reflexivity.
  - apply sample_alice_authenticated.
  - compute_done.
Defined.

(** X8: what [CreateCalendar] answers is what [GetCalendar] then
    returns for the new id, with no entries. *)
Theorem CreateCalendar_GetCalendar now_year s ctx req w u :
  healthy w →
  authenticated s ctx (w_db w) u →
  Forall (λ c, c_id c < calendars_seq (w_db w)) (calendars (w_db w)) →
  entries_calendar_ref (w_db w) →
  ∃ c w1,
    CreateCalendar now_year s ctx req w = (Ok c, w1) ∧
    GetCalendar s (pb.MkGetCalendarRequest (pb.Calendar_Id c)) w1
    = (Ok (pb.MkGetCalendarResponse (Some c) []), w1).
Proof.
  intros Hw Hauth Hfresh Href. rewrite (healthy_world w Hw).
  destruct w as [d fs]. simpl in *. clear Hw fs.
  rewrite (CreateCalendar_healthy _ _ _ _ _ _ Hauth).
  unfold sql_select_calendar. simpl. rewrite filter_app.
  rewrite (filter_fresh c_id _ _ Hfresh). simpl.
  rewrite filter_cons_True by done. simpl.
  eexists _, _. split; [reflexivity|]. simpl.
  unfold GetCalendar. run_bind. rewrite QueryRow_healthy.
  unfold sql_select_calendar. simpl. rewrite filter_app.
  rewrite (filter_fresh c_id _ _ Hfresh). simpl.
  rewrite filter_cons_True by done. simpl.
  unfold findEntries. run_bind. rewrite Query_healthy. unfold sql_find_entries.
  rewrite filter_none; [reflexivity|].
  intros [e x] Hin Hcid. simpl in Hcid.
  apply list_elem_of_bind in Hin as (e' & Hin & He').
  apply list_elem_of_bind in Hin as (x' & Hin & _).
  apply list_elem_of_singleton in Hin. simplify_eq.
  apply (proj1 (Forall_forall _ _) Href) in He'. simpl in He'.
  apply list_elem_of_fmap in He' as (c & Hc & Hcin).
  apply (proj1 (Forall_forall _ _) Hfresh) in Hcin. simpl in Hcin. lia.
Qed.

(** On the sample store: Alice creates a calendar and reads it back. *)
Lemma CreateCalendar_GetCalendar_witness :
  ∃ c w1,
    CreateCalendar 2024 Sample.service (Sample.bearer "alice-token")
      (pb.MkCreateCalendarRequest "Iris" "Separation") (World Sample.store []) = (Ok c, w1) ∧
    GetCalendar Sample.service (pb.MkGetCalendarRequest (pb.Calendar_Id c)) w1
    = (Ok (pb.MkGetCalendarResponse (Some c) []), w1).
Proof.
  apply (CreateCalendar_GetCalendar 2024 Sample.service (Sample.bearer "alice-token")
           (pb.MkCreateCalendarRequest "Iris" "Separation") (World Sample.store [])
           Sample.alice).
  - reflexivity.
  - apply sample_alice_authenticated.
  - compute_done.
  - apply sample_store_refs.
Defined.

(** ** Entries *)

(** X9: [CreateEntry] looks the calendar up before it looks at the
    day: for an id that names no calendar it fails with
    [sql.ErrNoRows], whatever the day, and writes nothing. *)
Theorem CreateEntry_missing_calendar s ctx req w u :
  healthy w →
  authenticated s ctx (w_db w) u →
  pb.CreateEntryRequest_CalendarId req ∉ c_id <$> calendars (w_db w) →
  CreateEntry s ctx req w = (Err ErrNoRows, w).
Proof.
  intros Hw Hauth Hnone. rewrite (healthy_world w Hw).
  destruct w as [d fs]. simpl in *. clear Hw fs.
  unfold CreateEntry. run.
  rewrite (getCurrentUser_authenticated _ _ _ _ Hauth). simpl.
  rewrite QueryRow_healthy. unfold sql_select_calendar_year.
  by rewrite (filter_no_key c_id _ _ Hnone).
Qed.

(** On the sample store: Alice asks for day 99 of calendar 9. *)
Lemma CreateEntry_missing_calendar_witness :
  CreateEntry Sample.service (Sample.bearer "alice-token")
    (pb.MkCreateEntryRequest 9 99) (World Sample.store [])
  = (Err ErrNoRows, World Sample.store []).
Proof.
  apply (CreateEntry_missing_calendar Sample.service (Sample.bearer "alice-token")
           (pb.MkCreateEntryRequest 9 99) (World Sample.store []) Sample.alice).
  - reflexivity.
  - apply sample_alice_authenticated.
  - compute_done.
Defined.

(** X10: with a day from 1 to 25 on an existing calendar,
    [CreateEntry] appends one entries row (the caller, the calendar,
    the day, empty texts) under the next entry id and touches nothing
    else; it answers with that id when some calendar has the same id,
    and with [sql.ErrNoRows] otherwise. *)
Theorem CreateEntry_appends s ctx req w u :
  healthy w →
  authenticated s ctx (w_db w) u →
  pb.CreateEntryRequest_CalendarId req ∈ c_id <$> calendars (w_db w) →
  1 ≤ pb.CreateEntryRequest_Day req ≤ 25 →
  let d := w_db w in
  let r := CreateEntry s ctx req w in
  entries (w_db r.2) =
    entries d ++ [EntriesRow (entries_seq d) (u_id u) (pb.CreateEntryRequest_CalendarId req)
                             (pb.CreateEntryRequest_Day req) "" "" "" ""] ∧
  entries_seq (w_db r.2) = entries_seq d + 1 ∧
  users (w_db r.2) = users d ∧
  calendars (w_db r.2) = calendars d ∧
  r.1 = if decide (entries_seq d ∈ c_id <$> calendars d)
        then Ok (pb.MkEntry (entries_seq d) None None 0 "" "" "" "")
        else Err ErrNoRows.
Proof.
  intros Hw Hauth Hcal Hday d r. subst d r. rewrite (healthy_world w Hw).
  destruct w as [d fs]. simpl in *. clear Hw fs.
  by rewrite (CreateEntry_rereads_calendars _ _ _ _ _ Hauth Hcal Hday).
Qed.

(** On the sample store: Alice takes day 7 of calendar 1. *)
Lemma CreateEntry_appends_witness :
  let r := CreateEntry Sample.service (Sample.bearer "alice-token")
             (pb.MkCreateEntryRequest 1 7) (World Sample.store []) in
  entries (w_db r.2) = entries Sample.store ++ [EntriesRow 5 1 1 7 "" "" "" ""] ∧
  entries_seq (w_db r.2) = 6 ∧
  users (w_db r.2) = users Sample.store ∧
  calendars (w_db r.2) = calendars Sample.store ∧
  r.1 = Err ErrNoRows.
Proof.
  apply (CreateEntry_appends Sample.service (Sample.bearer "alice-token")
           (pb.MkCreateEntryRequest 1 7) (World Sample.store []) Sample.alice).
  - reflexivity.
  - apply sample_alice_authenticated.
  - compute_done.
  - simpl. lia.
Defined.

(** X11: [CreateEntry] does not look for an entry that already holds
    the day: two calls in a row for the same calendar and day store two
    rows for that day. *)
Theorem CreateEntry_twice_same_day s ctx req w u :
  healthy w →
  authenticated s ctx (w_db w) u →
  pb.CreateEntryRequest_CalendarId req ∈ c_id <$> calendars (w_db w) →
  1 ≤ pb.CreateEntryRequest_Day req ≤ 25 →
  let d := w_db w in
  let w1 := (CreateEntry s ctx req w).2 in
  let w2 := (CreateEntry s ctx req w1).2 in
  entries (w_db w2) =
    entries d ++
    [EntriesRow (entries_seq d) (u_id u) (pb.CreateEntryRequest_CalendarId req)
                (pb.CreateEntryRequest_Day req) "" "" "" "";
     EntriesRow (entries_seq d + 1) (u_id u) (pb.CreateEntryRequest_CalendarId req)
                (pb.CreateEntryRequest_Day req) "" "" "" ""].
Proof.
  intros Hw Hauth Hcal Hday d w1 w2. subst d w1 w2. rewrite (healthy_world w Hw).
  destruct w as [d fs]. simpl in *. clear Hw fs.
  rewrite (CreateEntry_rereads_calendars _ _ _ _ _ Hauth Hcal Hday). simpl.
  set (d1 := Database _ _ _ _ _ _).
  assert (Hauth1 : authenticated s ctx d1 u) by by apply (authenticated_users_only _ _ d).
  rewrite (CreateEntry_rereads_calendars s ctx req d1 u Hauth1 Hcal Hday). simpl.
  by rewrite <- app_assoc.
Qed.

(** On the sample store: Alice takes day 3 of calendar 1, which she
    already holds, twice more. *)
Lemma CreateEntry_twice_same_day_witness :
  let req := pb.MkCreateEntryRequest 1 3 in
  let w1 := (CreateEntry Sample.service (Sample.bearer "alice-token") req
               (World Sample.store [])).2 in
  let w2 := (CreateEntry Sample.service (Sample.bearer "alice-token") req w1).2 in
  entries (w_db w2) =
    entries Sample.store ++
    [EntriesRow 5 1 1 3 "" "" "" ""; EntriesRow 6 1 1 3 "" "" "" ""].
Proof.
  apply (CreateEntry_twice_same_day Sample.service (Sample.bearer "alice-token")
           (pb.MkCreateEntryRequest 1 3) (World Sample.store []) Sample.alice).
  - reflexivity.
  - apply sample_alice_authenticated.
  - compute_done.
  - simpl. lia.
Defined.

(** The two updates of [UpdateEntry], on one row. *)
Lemma UpdateEntry_healthy s ctx req d u :
  authenticated s ctx d u →
  let id := pb.UpdateEntryRequest_EntryId req in
  let reread (d' : database) : outcome pb.Entry * world :=
    (match sql_select_entry id d' with
     | (comment, url, title, image) :: _ =>
         Ok (pb.MkEntry id None None 0 title comment url image)
     | [] => Err ErrNoRows
     end, World d' []) in
  let d1 := (sql_update_entry (pb.UpdateEntryRequest_Comment req)
               (pb.UpdateEntryRequest_Url req) id (u_id u) d).1 in
  UpdateEntry s ctx req (World d []) =
  if decide (pb.UpdateEntryRequest_Url req ≠ "")
  then match Fetch (s_metaFetcher s) (pb.UpdateEntryRequest_Url req) with
       | inr e => (Err e, World d1 [])
       | inl m => reread (sql_update_entry_meta (Title m) (ImageURL m) id (u_id u) d1).1
       end
  else reread d1.
Proof.
  intros Hauth id reread d1. unfold UpdateEntry. run.
  rewrite (getCurrentUser_authenticated _ _ _ _ Hauth). simpl.
  unfold defer. rewrite Exec_healthy. fold id. simpl. fold d1.
  destruct (decide (pb.UpdateEntryRequest_Url req ≠ "")) as [Hurl|Hurl].
  - destruct (Fetch _ _) as [m|e]; [|done].
    rewrite Prepare_healthy, Exec_healthy. simpl. rewrite QueryRow_healthy.
    unfold reread. destruct (sql_select_entry _ _) as [|[[[? ?] ?] ?] ?]; done.
  - rewrite QueryRow_healthy.
    unfold reread. destruct (sql_select_entry _ _) as [|[[[? ?] ?] ?] ?]; done.
Qed.

Lemma update_one_row {A} (key : A → Z) (P : A → Prop) `{!∀ x, Decision (P x)}
    (f : A → A) (l : list A) (E : A) :
  NoDup (key <$> l) → E ∈ l → P E → (∀ x, P x → key x = key E) →
  (λ x, if decide (P x) then f x else x) <$> l
  = (λ x, if decide (key x = key E) then f E else x) <$> l.
Proof.
  intros Hkey HE HPE HP. apply fmap_ext_elem_of. intros x Hx.
  destruct (decide (key x = key E)) as [Heq|Hne].
  - apply (key_inj key _ E x Hkey HE Hx) in Heq. subst x. by rewrite decide_True.
  - rewrite decide_False; [done|]. intros HPx. by apply Hne, HP.
Qed.

(** X12: with an empty url [UpdateEntry] does not consult the metadata
    fetcher: for the owner of [E] it stores the comment and the empty
    url, keeps the title and the image that were stored, and answers
    with these four fields. *)
Theorem UpdateEntry_without_url s ctx req w u E :
  healthy w →
  entries_key (w_db w) →
  authenticated s ctx (w_db w) u →
  E ∈ entries (w_db w) →
  e_id E = pb.UpdateEntryRequest_EntryId req →
  e_user_id E = u_id u →
  pb.UpdateEntryRequest_Url req = "" →
  let r := UpdateEntry s ctx req w in
  let E' := EntriesRow (e_id E) (e_user_id E) (e_calendar_id E) (e_day E)
                       (pb.UpdateEntryRequest_Comment req) "" (e_title E) (e_image_url E) in
  r.1 = Ok (pb.MkEntry (e_id E) None None 0 (e_title E)
                       (pb.UpdateEntryRequest_Comment req) "" (e_image_url E)) ∧
  entries (w_db r.2) = (λ x, if decide (e_id x = e_id E) then E' else x) <$> entries (w_db w) ∧
  users (w_db r.2) = users (w_db w) ∧
  calendars (w_db r.2) = calendars (w_db w).
Proof.
  intros Hw Hkey Hauth HE Hid Hown Hurl r E'. subst r. rewrite (healthy_world w Hw).
  destruct w as [d fs]. simpl in *. clear Hw fs.
  rewrite (UpdateEntry_healthy _ _ _ _ _ Hauth). rewrite Hurl. simpl.
  rewrite (update_one_row e_id _ _ _ E Hkey HE) by (try done; by intros x [? _]; congruence).
  unfold sql_select_entry. simpl. rewrite <- Hid.
  rewrite (filter_fmap_stable (λ r, e_id r = e_id E)).
  2:{ intros x. destruct (decide (e_id x = e_id E)); simpl; [|done]. split; [by intros _|done]. }
  rewrite (filter_key e_id _ E Hkey HE). simpl. rewrite decide_True by done. simpl.
  done.
Qed.

(** On the sample store: Bob rewrites the comment of his entry 1 and
    clears its url. *)
Lemma UpdateEntry_without_url_witness :
  let r := UpdateEntry Sample.service (Sample.bearer "bob-token")
             (pb.MkUpdateEntryRequest 1 "later" "") (World Sample.store []) in
  r.1 = Ok (pb.MkEntry 1 None None 0 "B" "later" "" "b.png") ∧
  entries (w_db r.2) =
    (λ x, if decide (e_id x = 1) then EntriesRow 1 2 1 5 "later" "" "B" "b.png" else x)
      <$> entries Sample.store ∧
  users (w_db r.2) = users Sample.store ∧
  calendars (w_db r.2) = calendars Sample.store.
Proof.
  apply (UpdateEntry_without_url Sample.service (Sample.bearer "bob-token")
           (pb.MkUpdateEntryRequest 1 "later" "") (World Sample.store [])
           Sample.bob Sample.entry1).
  - reflexivity.
  - apply sample_store_keys.
  - exists {[ "authorization" := ["bob-token"] ]}, "bob-token", [],
           (MkAuthResult "github" "b1" "Bob" "bob.png").
    repeat split; vm_compute; reflexivity.
  - compute_done.
  - reflexivity.
  - reflexivity.
  - reflexivity.
Defined.

(** X13: with a url whose metadata is fetched, [UpdateEntry] by the
    owner of [E] stores the comment, the url and the fetched title and
    image on that row only, and answers with these four fields. *)
Theorem UpdateEntry_with_metadata s ctx req w u E m :
  healthy w →
  entries_key (w_db w) →
  authenticated s ctx (w_db w) u →
  E ∈ entries (w_db w) →
  e_id E = pb.UpdateEntryRequest_EntryId req →
  e_user_id E = u_id u →
  pb.UpdateEntryRequest_Url req ≠ "" →
  Fetch (s_metaFetcher s) (pb.UpdateEntryRequest_Url req) = inl m →
  let r := UpdateEntry s ctx req w in
  let E' := EntriesRow (e_id E) (e_user_id E) (e_calendar_id E) (e_day E)
                       (pb.UpdateEntryRequest_Comment req) (pb.UpdateEntryRequest_Url req)
                       (Title m) (ImageURL m) in
  r.1 = Ok (pb.MkEntry (e_id E) None None 0 (Title m)
                       (pb.UpdateEntryRequest_Comment req) (pb.UpdateEntryRequest_Url req)
                       (ImageURL m)) ∧
  entries (w_db r.2) = (λ x, if decide (e_id x = e_id E) then E' else x) <$> entries (w_db w) ∧
  users (w_db r.2) = users (w_db w) ∧
  calendars (w_db r.2) = calendars (w_db w).
Proof.
  intros Hw Hkey Hauth HE Hid Hown Hurl Hfetch r E'. subst r. rewrite (healthy_world w Hw).
  destruct w as [d fs]. simpl in *. clear Hw fs.
  rewrite (UpdateEntry_healthy _ _ _ _ _ Hauth). rewrite decide_True by done.
  rewrite Hfetch. simpl.
  set (E1 := EntriesRow (e_id E) (e_user_id E) (e_calendar_id E) (e_day E)
               (pb.UpdateEntryRequest_Comment req) (pb.UpdateEntryRequest_Url req)
               (e_title E) (e_image_url E)).
  rewrite (update_one_row e_id _ _ _ E Hkey HE) by (try done; by intros x [? _]; congruence).
  simpl. fold E1.
  assert (Hstep : (λ r, if decide (e_id r = pb.UpdateEntryRequest_EntryId req
                                   ∧ e_user_id r = u_id u)
                        then EntriesRow (e_id r) (e_user_id r) (e_calendar_id r) (e_day r)
                               (e_comment r) (e_url r) (Title m) (ImageURL m)
                        else r)
                  <$> ((λ x, if decide (e_id x = e_id E) then E1 else x) <$> entries d)
                  = (λ x, if decide (e_id x = e_id E) then E' else x) <$> entries d).
  { rewrite <- list_fmap_compose. apply fmap_ext_elem_of. intros x Hx. simpl.
    destruct (decide (e_id x = e_id E)) as [Heq|Hne].
    - rewrite decide_True; [done|]. simpl. split; congruence.
    - rewrite decide_False; [done|]. intros [? _]. apply Hne. congruence. }
  rewrite Hstep. unfold sql_select_entry. simpl. rewrite <- Hid.
  rewrite (filter_fmap_stable (λ r, e_id r = e_id E)).
  2:{ intros x. destruct (decide (e_id x = e_id E)); simpl; [|done]. split; [by intros _|done]. }
  rewrite (filter_key e_id _ E Hkey HE). simpl. rewrite decide_True by done. done.
Qed.

(** On the sample store: Alice attaches a link to her entry 2. *)
Lemma UpdateEntry_with_metadata_witness :
  let r := UpdateEntry Sample.service (Sample.bearer "alice-token")
             (pb.MkUpdateEntryRequest 2 "read this" "http://rocq.example")
             (World Sample.store []) in
  r.1 = Ok (pb.MkEntry 2 None None 0 "A title" "read this" "http://rocq.example"
                       "preview.png") ∧
  entries (w_db r.2) =
    (λ x, if decide (e_id x = 2)
          then EntriesRow 2 1 1 3 "read this" "http://rocq.example" "A title" "preview.png"
          else x) <$> entries Sample.store ∧
  users (w_db r.2) = users Sample.store ∧
  calendars (w_db r.2) = calendars Sample.store.
Proof.
  apply (UpdateEntry_with_metadata Sample.service (Sample.bearer "alice-token")
           (pb.MkUpdateEntryRequest 2 "read this" "http://rocq.example")
           (World Sample.store []) Sample.alice Sample.entry2
           (MkSiteMeta "A title" "preview.png")).
  - reflexivity.
  - apply sample_store_keys.
  - apply sample_alice_authenticated.
  - compute_done.
  - reflexivity.
  - reflexivity.
  - discriminate.
  - reflexivity.
Defined.

(** X14: [UpdateEntry] for an id that names no entry of the caller
    writes nothing, whatever the url and whatever the fetcher answers. *)
Theorem UpdateEntry_not_owner s ctx req w u :
  healthy w →
  authenticated s ctx (w_db w) u →
  (∀ e, e ∈ entries (w_db w) →
        e_id e = pb.UpdateEntryRequest_EntryId req → e_user_id e ≠ u_id u) →
  (UpdateEntry s ctx req w).2 = w.
Proof.
  intros Hw Hauth Hnone. rewrite (healthy_world w Hw).
  destruct w as [d fs]. simpl in *. clear Hw fs.
  rewrite (UpdateEntry_healthy _ _ _ _ _ Hauth).
  assert (Hsame : ∀ (f : entries_row → entries_row),
            (λ r, if decide (e_id r = pb.UpdateEntryRequest_EntryId req ∧ e_user_id r = u_id u)
                  then f r else r) <$> entries d = entries d).
  { intros f. rewrite <- (list_fmap_id (entries d)) at 2. apply fmap_ext_elem_of.
    intros e He. rewrite decide_False; [done|]. intros [Hid Hown].
    by apply (Hnone e He Hid). }
  assert (H1 : (sql_update_entry (pb.UpdateEntryRequest_Comment req)
                  (pb.UpdateEntryRequest_Url req) (pb.UpdateEntryRequest_EntryId req)
                  (u_id u) d).1 = d).
  { unfold sql_update_entry. simpl.
    rewrite (Hsame (λ r, EntriesRow (e_id r) (e_user_id r) (e_calendar_id r) (e_day r)
                           (pb.UpdateEntryRequest_Comment req)
                           (pb.UpdateEntryRequest_Url req) (e_title r) (e_image_url r))).
    by destruct d. }
  rewrite H1.
  destruct (decide _) as [Hurl|Hurl]; [|done].
  destruct (Fetch _ _) as [m|e]; [|done].
  assert (H2 : (sql_update_entry_meta (Title m) (ImageURL m)
                  (pb.UpdateEntryRequest_EntryId req) (u_id u) d).1 = d).
  { unfold sql_update_entry_meta. simpl.
    rewrite (Hsame (λ r, EntriesRow (e_id r) (e_user_id r) (e_calendar_id r) (e_day r)
                           (e_comment r) (e_url r) (Title m) (ImageURL m))).
    by destruct d. }
  by rewrite H2.
Qed.

(** On the sample store: Alice edits entry 1, which is Bob's. *)
Lemma UpdateEntry_not_owner_witness :
  (UpdateEntry Sample.service (Sample.bearer "alice-token")
     (pb.MkUpdateEntryRequest 1 "mine" "http://rocq.example") (World Sample.store [])).2
  = World Sample.store [].
Proof.
  apply (UpdateEntry_not_owner Sample.service (Sample.bearer "alice-token")
           (pb.MkUpdateEntryRequest 1 "mine" "http://rocq.example")
           (World Sample.store []) Sample.alice).
  - reflexivity.
  - apply sample_alice_authenticated.
  - apply (Forall_forall (λ e, e_id e = 1 → e_user_id e ≠ 1)). compute_done.
Defined.

Lemma DeleteEntry_healthy s ctx req d u :
  authenticated s ctx d u →
  DeleteEntry s ctx req (World d []) =
  (Ok pb.MkEmpty,
   World (sql_delete_entry (pb.DeleteEntryRequest_EntryId req) (u_id u) d).1 []).
Proof.
  intros Hauth. unfold DeleteEntry. run.
  rewrite (getCurrentUser_authenticated _ _ _ _ Hauth). reflexivity.
Qed.

(** X15: [DeleteEntry] by the owner of the entry removes that row and
    only that one. *)
Theorem DeleteEntry_by_owner s ctx req w u E :
  healthy w →
  entries_key (w_db w) →
  authenticated s ctx (w_db w) u →
  E ∈ entries (w_db w) →
  e_id E = pb.DeleteEntryRequest_EntryId req →
  e_user_id E = u_id u →
  let r := DeleteEntry s ctx req w in
  r.1 = Ok pb.MkEmpty ∧
  entries (w_db r.2) = filter (λ e, e_id e ≠ e_id E) (entries (w_db w)) ∧
  users (w_db r.2) = users (w_db w) ∧
  calendars (w_db r.2) = calendars (w_db w).
Proof.
  intros Hw Hkey Hauth HE Hid Hown r. subst r. rewrite (healthy_world w Hw).
  destruct w as [d fs]. simpl in *. clear Hw fs.
  rewrite (DeleteEntry_healthy _ _ _ _ _ Hauth). simpl.
  split_and!; [done| |done..].
  apply filter_ext_elem_of. intros e He. split.
  - intros Hnot Heq. apply Hnot. rewrite <- Hid, <- Hown.
    by rewrite (key_inj e_id _ E e Hkey HE He Heq).
  - intros Hne [Heq _]. apply Hne. congruence.
Qed.

(** On the sample store: Alice withdraws her entry 4. *)
Lemma DeleteEntry_by_owner_witness :
  let r := DeleteEntry Sample.service (Sample.bearer "alice-token")
             (pb.MkDeleteEntryRequest 4) (World Sample.store []) in
  r.1 = Ok pb.MkEmpty ∧
  entries (w_db r.2) = filter (λ e, e_id e ≠ 4) (entries Sample.store) ∧
  users (w_db r.2) = users Sample.store ∧
  calendars (w_db r.2) = calendars Sample.store.
Proof.
  apply (DeleteEntry_by_owner Sample.service (Sample.bearer "alice-token")
           (pb.MkDeleteEntryRequest 4) (World Sample.store []) Sample.alice Sample.entry4).
  - reflexivity.
  - apply sample_store_keys.
  - apply sample_alice_authenticated.
  - compute_done.
  - reflexivity.
  - reflexivity.
Defined.

(** X16: [DeleteEntry] for an entry of somebody else succeeds and
    removes nothing, also when the caller owns the calendar of the
    entry. *)
Theorem DeleteEntry_not_owner s ctx req w u :
  healthy w →
  authenticated s ctx (w_db w) u →
  (∀ e, e ∈ entries (w_db w) →
        e_id e = pb.DeleteEntryRequest_EntryId req → e_user_id e ≠ u_id u) →
  DeleteEntry s ctx req w = (Ok pb.MkEmpty, w).
Proof.
  intros Hw Hauth Hnone. rewrite (healthy_world w Hw).
  destruct w as [d fs]. simpl in *. clear Hw fs.
  rewrite (DeleteEntry_healthy _ _ _ _ _ Hauth). simpl. do 2 f_equal.
  rewrite filter_all; [by destruct d|].
  intros e He [Hid Hown]. by apply (Hnone e He Hid).
Qed.

(** On the sample store: Bob, owner of calendar 3, removes entry 4,
    which Alice holds in that calendar. *)
Lemma DeleteEntry_not_owner_witness :
  DeleteEntry Sample.service (Sample.bearer "bob-token")
    (pb.MkDeleteEntryRequest 4) (World Sample.store [])
  = (Ok pb.MkEmpty, World Sample.store []).
Proof.
  apply (DeleteEntry_not_owner Sample.service (Sample.bearer "bob-token")
           (pb.MkDeleteEntryRequest 4) (World Sample.store []) Sample.bob).
  - reflexivity.
  - exists {[ "authorization" := ["bob-token"] ]}, "bob-token", [],
           (MkAuthResult "github" "b1" "Bob" "bob.png").
    repeat split; vm_compute; reflexivity.
  - apply (Forall_forall (λ e, e_id e = 4 → e_user_id e ≠ 2)). compute_done.
Defined.

(** ** Sign-in and authentication together *)

(** X18: after a successful [SignIn] with a token, a request that
    bears the same token is resolved by [getCurrentUser] to a user
    whose icon is the one of that sign-in; when the identity had no row
    before, the name is the one of that sign-in too. *)
Theorem SignIn_then_getCurrentUser s ctx jwt a md rest w :
  healthy w →
  VerifyIDToken (s_verifier s) jwt = Some a →
  FromIncomingContext ctx = Some md →
  md !! "authorization" = Some (jwt :: rest) →
  ∃ w1 u,
    SignIn s (pb.MkSignInRequest jwt) w = (Ok pb.MkEmpty, w1) ∧
    getCurrentUser s ctx w1 = (Ok u, w1) ∧
    user_IconURL u = IconURL a ∧
    (filter (has_identity (AuthProvider a) (AuthUID a)) (users (w_db w)) = [] →
     user_Name u = Name a ∧ user_ID u = users_seq (w_db w)).
Proof.
  intros Hw Hver Hmd Hauth. rewrite (healthy_world w Hw).
  destruct w as [d fs]. simpl in *. clear Hw fs.
  destruct (filter (has_identity (AuthProvider a) (AuthUID a)) (users d))
    as [|u0 us] eqn:Hf.
  - rewrite (SignIn_new_user _ _ _ _ Hver Hf).
    eexists _, _. split; [reflexivity|].
    rewrite (getCurrentUser_authenticated s ctx _
               (UsersRow (users_seq d) (Name a) (AuthUID a) (AuthProvider a) (IconURL a))).
    + simpl. done.
    + exists md, jwt, rest, a. split_and!; [done..|].
      simpl. rewrite filter_app, Hf. simpl. by rewrite filter_cons_True.
  - rewrite (SignIn_known_user _ _ _ _ _ _ Hver Hf).
    eexists _, _. split; [reflexivity|].
    rewrite (getCurrentUser_authenticated s ctx _ (with_icon (IconURL a) (u_id u0) u0)).
    + simpl. split; [done|]. split; [|done].
      unfold with_icon. by rewrite decide_True.
    + exists md, jwt, rest, a. split_and!; [done..|].
      simpl. rewrite filter_fmap_stable by apply has_identity_with_icon.
      by rewrite Hf.
Qed.

(** On the sample store: Carol signs in and then sends a request. *)
Lemma SignIn_then_getCurrentUser_witness :
  ∃ w1 u,
    SignIn Sample.service (pb.MkSignInRequest "carol-token") (World Sample.store [])
    = (Ok pb.MkEmpty, w1) ∧
    getCurrentUser Sample.service (Sample.bearer "carol-token") w1 = (Ok u, w1) ∧
    user_IconURL u = "carol.png" ∧
    (filter (has_identity "github" "c1") (users Sample.store) = [] →
     user_Name u = "Carol" ∧ user_ID u = 3).
Proof.
  apply (SignIn_then_getCurrentUser Sample.service (Sample.bearer "carol-token")
           "carol-token" (MkAuthResult "github" "c1" "Carol" "carol.png")
           {[ "authorization" := ["carol-token"] ]} [] (World Sample.store [])).
  - reflexivity.
  - reflexivity.
  - reflexivity.
  - vm_compute. reflexivity.
Defined.

(** ** Handlers that only read *)

Lemma preserves_db_Query {R} (q : database → option (list R)) : preserves_db (Query q).
Proof.
  unfold Query. apply preserves_db_bind; [apply preserves_db_round_trip|].
  intros _. apply preserves_db_bind; [by intros w|].
  intros d. destruct (q d); [apply preserves_db_ret|apply preserves_db_fail].
Qed.

Lemma preserves_db_go_call {A} (m : M A) : preserves_db m → preserves_db (go_call m).
Proof.
  intros Hm w. unfold go_call. specialize (Hm w). by destruct (m w) as [[a|e|] w'].
Qed.

Lemma preserves_db_defer {A} (d : M unit) (body : M A) :
  preserves_db d → preserves_db body → preserves_db (defer d body).
Proof.
  intros Hd Hb w. unfold defer. specialize (Hb w). destruct (body w) as [r w1].
  specialize (Hd w1). destruct (d w1) as [[[]|e|] w2]; simpl in *; congruence.
Qed.

Lemma preserves_db_deref {A} (p : option A) : preserves_db (deref p).
Proof. destruct p; [apply preserves_db_ret|apply preserves_db_panic]. Qed.

Lemma preserves_db_for_rows {R A} (rows : list R) (acc : A) (body : A → R → M A) :
  (∀ acc r, preserves_db (body acc r)) → preserves_db (for_rows rows acc body).
Proof.
  intros Hbody. revert acc. induction rows as [|r rows IH]; intros acc; simpl.
  - apply preserves_db_ret.
  - apply preserves_db_bind; [apply Hbody|apply IH].
Qed.

Lemma preserves_db_bindEntryCount cs : preserves_db (bindEntryCount cs).
Proof.
  unfold bindEntryCount. apply preserves_db_bind; [apply preserves_db_Query|].
  intros rows. apply preserves_db_bind; [|intros; apply preserves_db_ret].
  apply preserves_db_for_rows. intros acc r.
  apply preserves_db_bind; [|intros; apply preserves_db_ret].
  unfold scan_int32. destruct (decide _); [apply preserves_db_ret|apply preserves_db_fail].
Qed.

Lemma preserves_db_findEntries cid : preserves_db (findEntries cid).
Proof.
  unfold findEntries. apply preserves_db_bind; [apply preserves_db_Query|].
  intros rows. apply preserves_db_for_rows. intros acc r. apply preserves_db_ret.
Qed.

(** X19: [ListCalendars], [GetCalendar] and [ListEntries] never write:
    whatever the request and whichever database calls fail, the store
    after the call is the store before it. *)
Theorem read_handlers_preserve_db sql_like s
    (r1 : pb.ListCalendarsRequest) (r2 : pb.GetCalendarRequest) (r3 : pb.ListEntriesRequest) w :
  w_db (ListCalendars sql_like s r1 w).2 = w_db w ∧
  w_db (GetCalendar s r2 w).2 = w_db w ∧
  w_db (ListEntries s r3 w).2 = w_db w.
Proof.
  split_and!; revert w.
  - change (preserves_db (ListCalendars sql_like s r1)). unfold ListCalendars.
    apply preserves_db_bind; [apply preserves_db_go_call, preserves_db_Query|].
    intros [rows [e|]]; [apply preserves_db_fail|].
    apply preserves_db_defer.
    { unfold rows_Close. apply preserves_db_bind; [apply preserves_db_deref|].
      intros; apply preserves_db_ret. }
    apply preserves_db_bind; [apply preserves_db_deref|]. intros rs.
    apply preserves_db_bind.
    { apply preserves_db_for_rows. intros; apply preserves_db_ret. }
    intros cs. apply preserves_db_bind; [|intros; apply preserves_db_ret].
    destruct (decide _); [apply preserves_db_bindEntryCount|apply preserves_db_ret].
  - change (preserves_db (GetCalendar s r2)). unfold GetCalendar.
    apply preserves_db_bind; [apply preserves_db_QueryRow|]. intros c.
    apply preserves_db_bind; [apply preserves_db_findEntries|]. intros es.
    apply preserves_db_ret.
  - change (preserves_db (ListEntries s r3)). unfold ListEntries.
    apply preserves_db_bind; [apply preserves_db_go_call, preserves_db_Query|].
    intros [rows err]. apply preserves_db_defer.
    { unfold rows_Close. apply preserves_db_bind; [apply preserves_db_deref|].
      intros; apply preserves_db_ret. }
    destruct err as [e|]; [apply preserves_db_fail|].
    apply preserves_db_bind; [apply preserves_db_deref|]. intros rs.
    apply preserves_db_bind; [|intros; apply preserves_db_ret].
    apply preserves_db_for_rows. intros acc [[re rc] ru]. apply preserves_db_ret.
Qed.

(** ** ListCalendars with filters and a page size *)

(** What [ListCalendars] answers on a healthy world: the selected
    rows, scanned and bound to their entry counts.  The conditions
    depend on the year, the owner filter and the search string only. *)
Lemma ListCalendars_healthy sql_like s Y U Q :
  ∃ conditions,
    (∀ c, Forall (calendars_condition_holds sql_like c) conditions ↔
          c_year c = Y ∧ (U ≠ 0 → c_user_id c = U) ∧
          (Q ≠ "" → sql_like (c_title c) ("%" +:+ Q +:+ "%") = true ∨
                    sql_like (c_description c) ("%" +:+ Q +:+ "%") = true)) ∧
    ∀ n d,
      0 ≤ n →
      Z.of_nat (length (entries d)) ≤ max_int32 →
      let selected :=
        merge_sort (by_id_desc (λ r : calendars_row * users_row, c_id r.1))
          (filter (λ r : calendars_row * users_row,
                     Forall (calendars_condition_holds sql_like r.1) conditions)
                  (c ← calendars d; u ← join_user (c_user_id c) d; [(c, u)])) in
      ListCalendars sql_like s (pb.MkListCalendarsRequest Y U Q n) (World d []) =
      (Ok (pb.MkListCalendarsResponse
             ((λ row : calendars_row * users_row,
                 pb.MkCalendar (c_id row.1) (Some (user_view row.2)) (c_title row.1)
                   (c_description row.1) (c_year row.1)
                   (Z.of_nat (length (filter (λ e, e_calendar_id e = c_id row.1)
                                             (entries d)))))
                <$> (if decide (n = 0) then selected else take (Z.to_nat n) selected))),
       World d []).
Proof.
  unfold ListCalendars. simpl.
  set (conditions := if decide (Q ≠ "") then _ else _).
  exists conditions. split.
  - intros c. subst conditions.
    repeat case_decide; simpl; rewrite !Forall_cons, Forall_nil; simpl; tauto.
  - clearbody conditions. intros n d Hn Hsize.
    set (selected := merge_sort _ _).
    set (rows := if decide (n = 0) then selected else take (Z.to_nat n) selected).
    assert (Hquery : sql_list_calendars sql_like conditions
                       (if decide (n ≠ 0) then Some n else None) d = Some rows).
    { unfold sql_list_calendars, rows. fold selected.
      destruct (decide (n ≠ 0)) as [Hne|Heq].
      - rewrite decide_False by lia. by rewrite (decide_False (P := n = 0)).
      - by rewrite (decide_True (P := n = 0)) by lia. }
    clearbody rows. run_bind. unfold go_call. rewrite Query_healthy, Hquery.
    unfold defer. run_bind. simpl.
    erewrite for_rows_append by (intros acc r; reflexivity). simpl.
    set (scan := λ row : calendars_row * users_row, pb.MkCalendar _ _ _ _ _ 0).
    assert (Hres : (if decide (length (scan <$> rows) ≠ 0%nat)
                    then bindEntryCount (scan <$> rows) else mret (scan <$> rows))
                   (World d [])
                   = (Ok ((λ c, pb.MkCalendar (pb.Calendar_Id c) (pb.Calendar_Owner c)
                                  (pb.Calendar_Title c) (pb.Calendar_Description c)
                                  (pb.Calendar_Year c)
                                  (Z.of_nat (length (filter
                                     (λ e, e_calendar_id e = pb.Calendar_Id c) (entries d)))))
                            <$> (scan <$> rows)), World d [])).
    { destruct (decide (length (scan <$> rows) ≠ 0%nat)) as [Hlen|Hlen].
      - apply bindEntryCount_healthy; [|done]. intros Hnil. apply Hlen. by rewrite Hnil.
      - destruct (scan <$> rows); [done|]. by destruct Hlen. }
    rewrite Hres. by rewrite <- list_fmap_compose.
Qed.

(** X20: every calendar [ListCalendars] returns is of the requested
    year, belongs to the requested owner when one is given, matches
    the search pattern on its title or description when a search
    string is given, and carries its owner; with a page size, at most
    that many calendars are returned. *)
Theorem ListCalendars_filters sql_like s req w :
  healthy w →
  Z.of_nat (length (entries (w_db w))) ≤ max_int32 →
  0 ≤ pb.ListCalendarsRequest_PageSize req →
  let Y := pb.ListCalendarsRequest_Year req in
  let U := pb.ListCalendarsRequest_UserId req in
  let Q := pb.ListCalendarsRequest_Query req in
  let n := pb.ListCalendarsRequest_PageSize req in
  ∃ cs,
    ListCalendars sql_like s req w = (Ok (pb.MkListCalendarsResponse cs), w) ∧
    Forall (λ c,
      pb.Calendar_Year c = Y ∧
      (∃ u, pb.Calendar_Owner c = Some u ∧ (U ≠ 0 → pb.User_Id u = U)) ∧
      (Q ≠ "" → sql_like (pb.Calendar_Title c) ("%" +:+ Q +:+ "%") = true ∨
                sql_like (pb.Calendar_Description c) ("%" +:+ Q +:+ "%") = true)) cs ∧
    (n ≠ 0 → Z.of_nat (length cs) ≤ n).
Proof.
  intros Hw Hsize Hn Y U Q n. rewrite (healthy_world w Hw).
  destruct w as [d fs]. simpl in *. clear Hw fs.
  destruct req as [Y' U' Q' n']. simpl in *. subst Y U Q n.
  destruct (ListCalendars_healthy sql_like s Y' U' Q') as (conditions & Hconds & Hrun).
  rewrite (Hrun n' d Hn Hsize). clear Hrun.
  set (selected := merge_sort _ _).
  assert (Hsel : Forall (λ row : calendars_row * users_row,
                   Forall (calendars_condition_holds sql_like row.1) conditions ∧
                   u_id row.2 = c_user_id row.1) selected).
  { unfold selected. rewrite merge_sort_Permutation. apply Forall_forall.
    intros [c u] Hin. apply list_elem_of_filter in Hin as [Hall Hin]. split; [done|].
    apply list_elem_of_bind in Hin as (c' & Hin & _).
    apply list_elem_of_bind in Hin as (u' & Hin & Hu').
    apply list_elem_of_singleton in Hin. simplify_eq. simpl.
    unfold join_user in Hu'. by apply list_elem_of_filter in Hu' as [Hu' _]. }
  eexists. split; [reflexivity|]. split.
  - apply Forall_fmap.
    assert (Hrows : Forall (λ row : calendars_row * users_row,
                      Forall (calendars_condition_holds sql_like row.1) conditions ∧
                      u_id row.2 = c_user_id row.1)
                      (if decide (n' = 0) then selected
                       else take (Z.to_nat n') selected)).
    { destruct (decide _); [done|by apply Forall_take]. }
    eapply Forall_impl; [exact Hrows|].
    intros [c u] [Hall Hu]. simpl in *. apply Hconds in Hall as (Hy & HU & HQ).
    split; [done|]. split; [|done].
    eexists. split; [reflexivity|]. simpl. intros HU'. rewrite Hu. by apply HU.
  - intros Hne. rewrite length_fmap, decide_False by done.
    rewrite length_take. lia.
Qed.

(** On the sample store: the first calendar of Bob in 2023. *)
Lemma ListCalendars_filters_witness :
  ∃ cs,
    ListCalendars Sample.no_like Sample.service (pb.MkListCalendarsRequest 2023 2 "" 1)
      (World Sample.store [])
    = (Ok (pb.MkListCalendarsResponse cs), World Sample.store []) ∧
    Forall (λ c,
      pb.Calendar_Year c = 2023 ∧
      (∃ u, pb.Calendar_Owner c = Some u ∧ (2 ≠ 0 → pb.User_Id u = 2)) ∧
      ("" ≠ "" → Sample.no_like (pb.Calendar_Title c) ("%" +:+ "" +:+ "%") = true ∨
                 Sample.no_like (pb.Calendar_Description c) ("%" +:+ "" +:+ "%") = true)) cs ∧
    (1 ≠ 0 → Z.of_nat (length cs) ≤ 1).
Proof.
  apply (ListCalendars_filters Sample.no_like Sample.service
           (pb.MkListCalendarsRequest 2023 2 "" 1) (World Sample.store [])).
  - reflexivity.
  - simpl. unfold max_int32. lia.
  - simpl. lia.
Defined.

(** X21: a page size cuts the listing and changes nothing else: the
    answer with page size [n > 0] is the first [n] calendars of the
    answer to the same request without a page size. *)
Theorem ListCalendars_page sql_like s Y U Q n w :
  healthy w →
  Z.of_nat (length (entries (w_db w))) ≤ max_int32 →
  0 < n →
  ∃ cs,
    ListCalendars sql_like s (pb.MkListCalendarsRequest Y U Q 0) w
    = (Ok (pb.MkListCalendarsResponse cs), w) ∧
    ListCalendars sql_like s (pb.MkListCalendarsRequest Y U Q n) w
    = (Ok (pb.MkListCalendarsResponse (take (Z.to_nat n) cs)), w).
Proof.
  intros Hw Hsize Hn. rewrite (healthy_world w Hw).
  destruct w as [d fs]. simpl in *. clear Hw fs.
  destruct (ListCalendars_healthy sql_like s Y U Q) as (conditions & _ & Hrun).
  rewrite (Hrun 0 d) by (done || lia). rewrite (Hrun n d) by (done || lia).
  rewrite decide_True by done. rewrite decide_False by lia.
  eexists. split; [reflexivity|]. by rewrite fmap_take.
Qed.

(** On the sample store: the first of the calendars of 2023. *)
Lemma ListCalendars_page_witness :
  ∃ cs,
    ListCalendars Sample.no_like Sample.service (pb.MkListCalendarsRequest 2023 0 "" 0)
      (World Sample.store [])
    = (Ok (pb.MkListCalendarsResponse cs), World Sample.store []) ∧
    ListCalendars Sample.no_like Sample.service (pb.MkListCalendarsRequest 2023 0 "" 1)
      (World Sample.store [])
    = (Ok (pb.MkListCalendarsResponse (take (Z.to_nat 1) cs)), World Sample.store []).
Proof.
  apply (ListCalendars_page Sample.no_like Sample.service 2023 0 "" 1 (World Sample.store [])).
  - reflexivity.
  - simpl. unfold max_int32. lia.
  - lia.
Defined.

(** ** Integrity of the store under every failure schedule *)

(** *** Rules for [triple] *)

Lemma triple_bind {A B} P (m : M A) Q (f : A → M B) (I : database → Prop) :
  triple P m Q →
  (∀ r d, Q r d → I d) →
  (∀ a, triple (Q (Ok a)) (f a) (λ _, I)) →
  triple P (m ≫= f) (λ _, I).
Proof.
  intros Hm HQ Hf w HP. run_bind. specialize (Hm w HP).
  destruct (m w) as [[a|e|] w']; simpl in *; [by apply Hf|by eapply HQ..].
Qed.

Lemma triple_weaken {A} (P P' : database → Prop) (m : M A) Q :
  (∀ d, P' d → P d) → triple P m Q → triple P' m Q.
Proof. intros HP Hm w Hw. by apply Hm, HP. Qed.

Lemma triple_read {A} (P : database → Prop) (m : M A) :
  preserves_db m → triple P m (λ _, P).
Proof. intros Hm w HP. by rewrite Hm. Qed.

Lemma triple_ret {A} (P : database → Prop) (a : A) : triple P (mret a) (λ _, P).
Proof. by intros w HP. Qed.

Lemma triple_fail {A} (P : database → Prop) (e : error) : triple P (@fail A e) (λ _, P).
Proof. by intros w HP. Qed.

Lemma triple_QueryRow {R} (P : database → Prop) (q : database → list R) :
  triple P (QueryRow q)
    (λ r d, P d ∧ match r with
                  | Ok a => a ∈ q d
                  | Err e => e = ErrNoRows → q d = []
                  | Panic => False
                  end).
Proof.
  intros [d fs] HP. unfold QueryRow, round_trip. run. simpl.
  destruct fs as [|[] fs]; simpl; [|done|].
  - destruct (q d) as [|a rs] eqn:Hq; simpl; [done|]. split; [done|]. rewrite Hq. left.
  - destruct (q d) as [|a rs] eqn:Hq; simpl; [done|]. split; [done|]. rewrite Hq. left.
Qed.

Lemma triple_getCurrentUser (P : database → Prop) s ctx :
  triple P (getCurrentUser s ctx)
    (λ r d, P d ∧ ∀ u, r = Ok u → user_ID u ∈ u_id <$> users d).
Proof.
  intros w HP. unfold getCurrentUser.
  destruct (FromIncomingContext ctx) as [md|]; [|done].
  destruct (md_get md "authorization") as [|tok rest]; [done|].
  destruct (VerifyIDToken (s_verifier s) tok) as [a|]; [|done]. simpl. run_bind. simpl.
  pose proof (triple_QueryRow P (sql_select_user_by_auth (AuthProvider a) (AuthUID a)) w HP)
    as Hq.
  destruct (QueryRow _ w) as [[u|e|] w']; simpl in *; [|by split; [apply Hq|]..].
  destruct Hq as [HP' Hin]. split; [done|]. intros ? [= <-].
  unfold sql_select_user_by_auth in Hin.
  apply list_elem_of_fmap in Hin as (r & -> & Hr). simpl.
  apply list_elem_of_filter in Hr as [_ Hr]. by apply list_elem_of_fmap_2.
Qed.

Lemma triple_Prepare {S} (P : database → Prop) (stmt : S) :
  triple P (Prepare stmt) (λ r d, P d ∧ ∀ a, r = Ok a → a = stmt).
Proof.
  intros [d fs] HP. unfold Prepare, round_trip. run. simpl.
  destruct fs as [|[] fs]; simpl; (split; [done|]); congruence.
Qed.

Lemma triple_Exec (P I : database → Prop) run :
  (∀ d, P d → I d) → (∀ d, P d → I (run d).1) →
  triple P (Exec run) (λ _, I).
Proof.
  intros HPI Hrun [d fs] HP. unfold Exec, round_trip. run. simpl.
  destruct fs as [|[] fs]; simpl; [|by apply HPI|].
  - specialize (Hrun d HP). by destruct (run d).
  - specialize (Hrun d HP). by destruct (run d).
Qed.

Lemma triple_defer_Close {A S} P (stmt : S) (body : M A) Q :
  triple P body Q → triple P (defer (stmt_Close stmt) body) Q.
Proof.
  intros Hb w HP. unfold defer. specialize (Hb w HP). by destruct (body w).
Qed.

(** *** The statements keep the integrity *)

Lemma fmap_key_stable {A} (key : A → Z) (g : A → A) (l : list A) :
  (∀ x, key (g x) = key x) → key <$> (g <$> l) = key <$> l.
Proof.
  intros Hg. rewrite <- list_fmap_compose. apply fmap_ext_elem_of. intros x _. apply Hg.
Qed.

Lemma NoDup_key_filter {A} (key : A → Z) (P : A → Prop) `{!∀ x, Decision (P x)} (l : list A) :
  NoDup (key <$> l) → NoDup (key <$> filter P l).
Proof.
  intros Hnd. eapply sublist_NoDup; [exact Hnd|].
  apply fmap_sublist, sublist_filter.
Qed.

Lemma Forall_filter_keep {A} (Q P : A → Prop) `{!∀ x, Decision (P x)} (l : list A) :
  Forall Q l → Forall Q (filter P l).
Proof.
  rewrite !Forall_forall. intros HQ x Hx. apply list_elem_of_filter in Hx as [_ Hx].
  by apply HQ.
Qed.

Lemma NoDup_key_snoc {A} (key : A → Z) (l : list A) (x : A) :
  NoDup (key <$> l) → Forall (λ r, key r < key x) l → NoDup (key <$> (l ++ [x])).
Proof.
  intros Hnd Hfresh. rewrite fmap_app. apply NoDup_app. split; [done|].
  split; [|apply NoDup_singleton].
  intros k Hk Hx. apply list_elem_of_singleton in Hx. subst k.
  apply list_elem_of_fmap in Hk as (r & Hr & Hin).
  apply (proj1 (Forall_forall _ _) Hfresh) in Hin. simpl in Hin. lia.
Qed.

Lemma Forall_fresh_snoc {A} (key : A → Z) (l : list A) (x : A) (next : Z) :
  Forall (λ r, key r < next) l → key x = next →
  Forall (λ r, key r < next + 1) (l ++ [x]).
Proof.
  intros Hfresh Hx. apply Forall_app. split.
  - eapply Forall_impl; [exact Hfresh|]. simpl. intros; lia.
  - apply Forall_singleton. lia.
Qed.

Lemma sql_insert_user_integrity name uid provider icon d :
  store_integrity d →
  filter (has_identity provider uid) (users d) = [] →
  store_integrity (sql_insert_user name uid provider icon d).1.
Proof.
  intros (Hu & Hc & He & Hi & Hco & Heo & Hfu & Hfc & Hfe) Hnone.
  unfold store_integrity, users_key, calendars_key, entries_key, users_identity_key,
    calendars_owner_ref, entries_owner_ref, counters_fresh in *. simpl.
  split_and!; try done.
  - by apply NoDup_key_snoc.
  - rewrite fmap_app. apply NoDup_app. split; [done|]. split; [|apply NoDup_singleton].
    intros pr Hpr Hnew. apply list_elem_of_singleton in Hnew. subst pr.
    apply list_elem_of_fmap in Hpr as (r & Hr & Hin). simpl in Hr.
    eapply (filter_nil_not_elem_of _ _ r Hnone); [|done]. split; congruence.
  - eapply Forall_impl; [exact Hco|]. simpl. intros c Hin.
    rewrite fmap_app. apply elem_of_app. by left.
  - eapply Forall_impl; [exact Heo|]. simpl. intros e Hin.
    rewrite fmap_app. apply elem_of_app. by left.
  - by apply Forall_fresh_snoc.
Qed.

Lemma sql_update_user_icon_integrity icon id d :
  store_integrity d → store_integrity (sql_update_user_icon icon id d).1.
Proof.
  intros (Hu & Hc & He & Hi & Hco & Heo & Hfu & Hfc & Hfe).
  assert (Hids : u_id <$> (with_icon icon id <$> users d) = u_id <$> users d).
  { apply fmap_key_stable. intros r. unfold with_icon. by destruct (decide _). }
  unfold store_integrity, users_key, calendars_key, entries_key, users_identity_key,
    calendars_owner_ref, entries_owner_ref, counters_fresh in *. simpl.
  rewrite Hids. split_and!; try done.
  - rewrite <- list_fmap_compose.
    rewrite (fmap_ext_elem_of _ (λ r, (u_auth_provider r, u_auth_uid r))); [done|].
    intros r _. simpl. unfold with_icon. by destruct (decide _).
  - apply Forall_fmap. eapply Forall_impl; [exact Hfu|]. simpl. intros r Hr.
    unfold with_icon. by destruct (decide _).
Qed.

Lemma sql_insert_calendar_integrity uid title description year d :
  store_integrity d → uid ∈ u_id <$> users d →
  store_integrity (sql_insert_calendar uid title description year d).1.
Proof.
  intros (Hu & Hc & He & Hi & Hco & Heo & Hfu & Hfc & Hfe) Huid.
  unfold store_integrity, users_key, calendars_key, entries_key, users_identity_key,
    calendars_owner_ref, entries_owner_ref, counters_fresh in *. simpl.
  split_and!; try done.
  - by apply NoDup_key_snoc.
  - apply Forall_app. split; [done|]. by apply Forall_singleton.
  - by apply Forall_fresh_snoc.
Qed.

Lemma sql_update_calendar_integrity title description id uid d :
  store_integrity d → store_integrity (sql_update_calendar title description id uid d).1.
Proof.
  intros (Hu & Hc & He & Hi & Hco & Heo & Hfu & Hfc & Hfe).
  unfold store_integrity, users_key, calendars_key, entries_key, users_identity_key,
    calendars_owner_ref, entries_owner_ref, counters_fresh in *. simpl.
  split_and!; try done.
  - rewrite fmap_key_stable; [done|]. intros r. by destruct (decide _).
  - apply Forall_fmap. eapply Forall_impl; [exact Hco|]. simpl. intros r Hr.
    by destruct (decide _).
  - apply Forall_fmap. eapply Forall_impl; [exact Hfc|]. simpl. intros r Hr.
    by destruct (decide _).
Qed.

Lemma sql_delete_calendar_integrity id uid d :
  store_integrity d → store_integrity (sql_delete_calendar id uid d).1.
Proof.
  intros (Hu & Hc & He & Hi & Hco & Heo & Hfu & Hfc & Hfe).
  unfold store_integrity, users_key, calendars_key, entries_key, users_identity_key,
    calendars_owner_ref, entries_owner_ref, counters_fresh in *. simpl.
  split_and!; try done.
  - by apply NoDup_key_filter.
  - by apply Forall_filter_keep.
  - by apply Forall_filter_keep.
Qed.

Lemma sql_insert_entry_integrity uid cid day d :
  store_integrity d → uid ∈ u_id <$> users d →
  store_integrity (sql_insert_entry uid cid day d).1.
Proof.
  intros (Hu & Hc & He & Hi & Hco & Heo & Hfu & Hfc & Hfe) Huid.
  unfold store_integrity, users_key, calendars_key, entries_key, users_identity_key,
    calendars_owner_ref, entries_owner_ref, counters_fresh in *. simpl.
  split_and!; try done.
  - by apply NoDup_key_snoc.
  - apply Forall_app. split; [done|]. by apply Forall_singleton.
  - by apply Forall_fresh_snoc.
Qed.

Lemma sql_update_entry_integrity comment url id uid d :
  store_integrity d → store_integrity (sql_update_entry comment url id uid d).1.
Proof.
  intros (Hu & Hc & He & Hi & Hco & Heo & Hfu & Hfc & Hfe).
  unfold store_integrity, users_key, calendars_key, entries_key, users_identity_key,
    calendars_owner_ref, entries_owner_ref, counters_fresh in *. simpl.
  split_and!; try done.
  - rewrite fmap_key_stable; [done|]. intros r. by destruct (decide _).
  - apply Forall_fmap. eapply Forall_impl; [exact Heo|]. simpl. intros r Hr.
    by destruct (decide _).
  - apply Forall_fmap. eapply Forall_impl; [exact Hfe|]. simpl. intros r Hr.
    by destruct (decide _).
Qed.

Lemma sql_update_entry_meta_integrity title image id uid d :
  store_integrity d → store_integrity (sql_update_entry_meta title image id uid d).1.
Proof.
  intros (Hu & Hc & He & Hi & Hco & Heo & Hfu & Hfc & Hfe).
  unfold store_integrity, users_key, calendars_key, entries_key, users_identity_key,
    calendars_owner_ref, entries_owner_ref, counters_fresh in *. simpl.
  split_and!; try done.
  - rewrite fmap_key_stable; [done|]. intros r. by destruct (decide _).
  - apply Forall_fmap. eapply Forall_impl; [exact Heo|]. simpl. intros r Hr.
    by destruct (decide _).
  - apply Forall_fmap. eapply Forall_impl; [exact Hfe|]. simpl. intros r Hr.
    by destruct (decide _).
Qed.

Lemma sql_delete_entry_integrity id uid d :
  store_integrity d → store_integrity (sql_delete_entry id uid d).1.
Proof.
  intros (Hu & Hc & He & Hi & Hco & Heo & Hfu & Hfc & Hfe).
  unfold store_integrity, users_key, calendars_key, entries_key, users_identity_key,
    calendars_owner_ref, entries_owner_ref, counters_fresh in *. simpl.
  split_and!; try done.
  - by apply NoDup_key_filter.
  - by apply Forall_filter_keep.
  - by apply Forall_filter_keep.
Qed.

(** *** The handlers keep the integrity *)

Lemma triple_read_to {A} (P I : database → Prop) (m : M A) :
  preserves_db m → (∀ d, P d → I d) → triple P m (λ _, I).
Proof. intros Hm HPI w HP. rewrite Hm. by apply HPI. Qed.

Lemma triple_go_call {A} P (m : M A) Q :
  triple P m Q →
  triple P (go_call m)
    (λ r d, match r with
            | Ok (Some a, None) => Q (Ok a) d
            | Ok (None, Some e) => Q (Err e) d
            | Panic => Q Panic d
            | _ => False
            end).
Proof.
  intros Hm w HP. unfold go_call. specialize (Hm w HP). by destruct (m w) as [[a|e|] w'].
Qed.

Lemma triple_Prepare_bind {S B} (P I : database → Prop) (stmt : S) (f : S → M B) :
  (∀ d, P d → I d) →
  triple P (f stmt) (λ _, I) →
  triple P (Prepare stmt ≫= f) (λ _, I).
Proof.
  intros HPI Hf [d fs] HP. unfold Prepare, round_trip. run. simpl.
  destruct fs as [|[] fs]; simpl; [by apply (Hf (World d []))|by apply HPI|].
  by apply (Hf (World d fs)).
Qed.

Lemma triple_Exec_then_read {B} (P I : database → Prop) run (f : sql_Result → M B) :
  (∀ d, P d → I d) →
  (∀ d, P d → I (run d).1) →
  (∀ res, preserves_db (f res)) →
  triple P (Exec run ≫= f) (λ _, I).
Proof.
  intros HPI Hrun Hf. eapply triple_bind; [by apply triple_Exec|done|].
  intros res. by apply triple_read_to.
Qed.

Lemma SignIn_integrity s req :
  triple store_integrity (SignIn s req) (λ _, store_integrity).
Proof.
  unfold SignIn.
  eapply triple_bind; [apply triple_read, preserves_db_deref|done|]. intros a.
  eapply triple_bind; [apply triple_go_call, triple_QueryRow| |].
  { intros [[[id|] [e|]]|e|] d; simpl; tauto. }
  intros [[id|] [e|]]; try (by intros w []).
  - simpl. apply triple_Prepare_bind; [by intros d [? _]|].
    apply triple_defer_Close. apply triple_Exec_then_read.
    + by intros d [? _].
    + intros d [HI _]. by apply sql_update_user_icon_integrity.
    + intros res. apply preserves_db_ret.
  - simpl. destruct (decide (e ≠ ErrNoRows)) as [Hne|Heq].
    { apply triple_read_to; [apply preserves_db_fail|by intros d [? _]]. }
    apply dec_stable in Heq. subst e.
    apply triple_Prepare_bind; [by intros d [? _]|].
    apply triple_defer_Close. apply triple_Exec_then_read.
    + by intros d [? _].
    + intros d [HI Hnone]. apply sql_insert_user_integrity; [done|].
      specialize (Hnone eq_refl). unfold sql_select_user_id_by_auth in Hnone.
      by apply fmap_nil_inv in Hnone.
    + intros res. apply preserves_db_ret.
Qed.

Lemma CreateCalendar_integrity now_year s ctx req :
  triple store_integrity (CreateCalendar now_year s ctx req) (λ _, store_integrity).
Proof.
  unfold CreateCalendar.
  eapply triple_bind; [apply triple_getCurrentUser|by intros r d [? _]|]. intros cu.
  apply triple_Prepare_bind; [by intros d [? _]|].
  apply triple_defer_Close. apply triple_Exec_then_read.
  - by intros d [? _].
  - intros d [HI Hu]. apply sql_insert_calendar_integrity; [done|]. by apply Hu.
  - intros res. apply preserves_db_bind; [apply preserves_db_ret|]. intros id.
    apply preserves_db_bind; [apply preserves_db_QueryRow|]. intros c.
    apply preserves_db_ret.
Qed.

Lemma UpdateCalendar_integrity s ctx req :
  triple store_integrity (UpdateCalendar s ctx req) (λ _, store_integrity).
Proof.
  unfold UpdateCalendar.
  eapply triple_bind; [apply triple_read, preserves_db_getCurrentUser|done|]. intros cu.
  apply triple_Prepare_bind; [done|].
  apply triple_defer_Close. apply triple_Exec_then_read; [done| |].
  - intros d HI. by apply sql_update_calendar_integrity.
  - intros res. apply preserves_db_bind; [apply preserves_db_QueryRow|]. intros c.
    apply preserves_db_ret.
Qed.

Lemma DeleteCalendar_integrity s ctx req :
  triple store_integrity (DeleteCalendar s ctx req) (λ _, store_integrity).
Proof.
  unfold DeleteCalendar.
  eapply triple_bind;
    [apply triple_read, preserves_db_go_call, preserves_db_getCurrentUser|done|].
  intros [cu err0].
  eapply triple_bind;
    [apply triple_go_call, (triple_Prepare store_integrity sql_delete_calendar)| |].
  { intros [[[st|] [e|]]|e|] d; simpl; tauto. }
  intros [[st|] [e|]]; try (by intros w []).
  simpl. intros w [HI Hst]. specialize (Hst st eq_refl). subst st. revert w HI.
    change (triple store_integrity
              (defer (stmt_Close sql_delete_calendar)
                 (u ← deref cu;
                  _ ← Exec (sql_delete_calendar (pb.DeleteCalendarRequest_CalendarId req)
                                                 (user_ID u));
                  mret pb.MkEmpty))
              (λ _, store_integrity)).
    apply triple_defer_Close.
    eapply triple_bind; [apply triple_read, preserves_db_deref|done|]. intros u.
    apply triple_Exec_then_read; [done| |].
    + intros d HI. by apply sql_delete_calendar_integrity.
    + intros res. apply preserves_db_ret.
Qed.

Lemma CreateEntry_integrity s ctx req :
  triple store_integrity (CreateEntry s ctx req) (λ _, store_integrity).
Proof.
  unfold CreateEntry.
  eapply triple_bind; [apply triple_getCurrentUser|by intros r d [? _]|]. intros cu.
  eapply triple_bind; [apply triple_read, preserves_db_QueryRow|by intros r d [? _]|].
  intros year. destruct (decide _).
  { apply triple_read_to; [apply preserves_db_fail|by intros d [? _]]. }
  apply triple_Prepare_bind; [by intros d [? _]|].
  apply triple_defer_Close. apply triple_Exec_then_read.
  - by intros d [? _].
  - intros d [HI Hu]. apply sql_insert_entry_integrity; [done|]. by apply Hu.
  - intros res. apply preserves_db_bind; [apply preserves_db_ret|]. intros id.
    apply preserves_db_bind; [apply preserves_db_QueryRow|]. intros c.
    apply preserves_db_ret.
Qed.

Lemma UpdateEntry_integrity s ctx req :
  triple store_integrity (UpdateEntry s ctx req) (λ _, store_integrity).
Proof.
  unfold UpdateEntry.
  eapply triple_bind; [apply triple_read, preserves_db_getCurrentUser|done|]. intros cu.
  apply triple_Prepare_bind; [done|].
  apply triple_defer_Close.
  eapply triple_bind; [apply (triple_Exec store_integrity store_integrity)|done|].
  { done. }
  { intros d HI. by apply sql_update_entry_integrity. }
  intros res.
  assert (Hreread : ∀ id,
            preserves_db ('(comment, url, title, imageURL) ← QueryRow (sql_select_entry id);
                          mret (pb.MkEntry id None None 0 title comment url imageURL))).
  { intros id. apply preserves_db_bind; [apply preserves_db_QueryRow|].
    intros [[[? ?] ?] ?]. apply preserves_db_ret. }
  destruct (decide _); [|by apply triple_read].
  destruct (Fetch _ _) as [m|e]; [|apply triple_fail].
  apply triple_Prepare_bind; [done|].
  apply triple_defer_Close. apply triple_Exec_then_read; [done| |].
  - intros d HI. by apply sql_update_entry_meta_integrity.
  - intros res'. apply Hreread.
Qed.

Lemma DeleteEntry_integrity s ctx req :
  triple store_integrity (DeleteEntry s ctx req) (λ _, store_integrity).
Proof.
  unfold DeleteEntry.
  eapply triple_bind; [apply triple_read, preserves_db_getCurrentUser|done|]. intros cu.
  apply triple_Prepare_bind; [done|].
  apply triple_Exec_then_read; [done| |].
  - intros d HI. by apply sql_delete_entry_integrity.
  - intros res. apply preserves_db_ret.
Qed.

(** X22: keys, identities, owner references and id counters survive
    every handler that writes, whichever database calls fail on the
    way: if the store has this integrity before [SignIn],
    [CreateCalendar], [UpdateCalendar], [DeleteCalendar],
    [CreateEntry], [UpdateEntry] or [DeleteEntry], it has it after. *)
Theorem handlers_keep_integrity now_year s ctx w
    (r0 : pb.SignInRequest) (r1 : pb.CreateCalendarRequest) (r2 : pb.UpdateCalendarRequest)
    (r3 : pb.DeleteCalendarRequest) (r4 : pb.CreateEntryRequest)
    (r5 : pb.UpdateEntryRequest) (r6 : pb.DeleteEntryRequest) :
  store_integrity (w_db w) →
  store_integrity (w_db (SignIn s r0 w).2) ∧
  store_integrity (w_db (CreateCalendar now_year s ctx r1 w).2) ∧
  store_integrity (w_db (UpdateCalendar s ctx r2 w).2) ∧
  store_integrity (w_db (DeleteCalendar s ctx r3 w).2) ∧
  store_integrity (w_db (CreateEntry s ctx r4 w).2) ∧
  store_integrity (w_db (UpdateEntry s ctx r5 w).2) ∧
  store_integrity (w_db (DeleteEntry s ctx r6 w).2).
Proof.
  intros HI. split_and!.
  - by apply (SignIn_integrity s r0 w).
  - by apply (CreateCalendar_integrity now_year s ctx r1 w).
  - by apply (UpdateCalendar_integrity s ctx r2 w).
  - by apply (DeleteCalendar_integrity s ctx r3 w).
  - by apply (CreateEntry_integrity s ctx r4 w).
  - by apply (UpdateEntry_integrity s ctx r5 w).
  - by apply (DeleteEntry_integrity s ctx r6 w).
Qed.

Lemma sample_store_integrity : store_integrity Sample.store.
Proof.
  unfold store_integrity, counters_fresh. split_and!;
    try apply sample_store_keys; try apply sample_store_refs; compute_done.
Qed.

(** On the sample store, with the insert of each handler failing. *)
Lemma handlers_keep_integrity_witness :
  let w := World Sample.store [false; false; true] in
  let ctx := Sample.bearer "alice-token" in
  store_integrity (w_db (SignIn Sample.service (pb.MkSignInRequest "carol-token") w).2) ∧
  store_integrity (w_db (CreateCalendar 2024 Sample.service ctx
                           (pb.MkCreateCalendarRequest "Iris" "Separation") w).2) ∧
  store_integrity (w_db (UpdateCalendar Sample.service ctx
                           (pb.MkUpdateCalendarRequest 1 "Rocq" "Nine") w).2) ∧
  store_integrity (w_db (DeleteCalendar Sample.service ctx
                           (pb.MkDeleteCalendarRequest 1) w).2) ∧
  store_integrity (w_db (CreateEntry Sample.service ctx
                           (pb.MkCreateEntryRequest 1 7) w).2) ∧
  store_integrity (w_db (UpdateEntry Sample.service ctx
                           (pb.MkUpdateEntryRequest 2 "hi" "http://rocq.example") w).2) ∧
  store_integrity (w_db (DeleteEntry Sample.service ctx (pb.MkDeleteEntryRequest 2) w).2).
Proof.
  intros w ctx.
  apply (handlers_keep_integrity 2024 Sample.service ctx w).
  apply sample_store_integrity.
Defined.

(** ** Deleting a calendar and reading afterwards *)

(** X17: once its owner has deleted a calendar, [GetCalendar] for
    that id fails with [sql.ErrNoRows]. *)
Theorem DeleteCalendar_then_GetCalendar s ctx req w u C :
  healthy w →
  calendars_key (w_db w) →
  authenticated s ctx (w_db w) u →
  C ∈ calendars (w_db w) →
  c_id C = pb.DeleteCalendarRequest_CalendarId req →
  c_user_id C = u_id u →
  let w1 := (DeleteCalendar s ctx req w).2 in
  GetCalendar s (pb.MkGetCalendarRequest (c_id C)) w1 = (Err ErrNoRows, w1).
Proof.
  intros Hw Hkey Hauth HC Hid Hown w1. subst w1. rewrite (healthy_world w Hw).
  destruct w as [d fs]. simpl in *. clear Hw fs.
  rewrite (DeleteCalendar_healthy _ _ _ _ _ Hauth). simpl.
  unfold GetCalendar. run_bind. rewrite QueryRow_healthy.
  unfold sql_select_calendar. simpl.
  rewrite filter_none; [done|].
  intros c Hc Heq. apply list_elem_of_filter in Hc as [Hnot Hc]. apply Hnot.
  apply (key_inj c_id _ C c Hkey HC Hc) in Heq. subst c. by rewrite <- Hid.
Qed.

(** On the sample store: Bob deletes calendar 3 and asks for it. *)
Lemma DeleteCalendar_then_GetCalendar_witness :
  let w1 := (DeleteCalendar Sample.service (Sample.bearer "bob-token")
               (pb.MkDeleteCalendarRequest 3) (World Sample.store [])).2 in
  GetCalendar Sample.service (pb.MkGetCalendarRequest 3) w1 = (Err ErrNoRows, w1).
Proof.
  apply (DeleteCalendar_then_GetCalendar Sample.service (Sample.bearer "bob-token")
           (pb.MkDeleteCalendarRequest 3) (World Sample.store []) Sample.bob Sample.older).
  - reflexivity.
  - apply sample_store_keys.
  - exists {[ "authorization" := ["bob-token"] ]}, "bob-token", [],
           (MkAuthResult "github" "b1" "Bob" "bob.png").
    repeat split; vm_compute; reflexivity.
  - compute_done.
  - reflexivity.
  - reflexivity.
Defined.

(** Without a year, the rows of the [ListEntries] query are the
    entries of the user that still have their calendar row. *)
Lemma list_entries_rows_joined d U (es : list entries_row) :
  users_key d → calendars_key d →
  (∀ e, e ∈ es → e_user_id e ∈ u_id <$> users d) →
  (λ row : entries_row * calendars_row * users_row,
     pb.MkEntry (e_id row.1.1)
                (Some (pb.MkUser (u_id row.2) (u_name row.2) (u_icon_url row.2)))
                (Some (pb.MkCalendar (c_id row.1.2) None (c_title row.1.2)
                                     (c_description row.1.2) 0 0))
                (e_day row.1.1) (e_title row.1.1) (e_comment row.1.1) (e_url row.1.1)
                (e_image_url row.1.1)) <$>
    filter (λ r : entries_row * calendars_row * users_row,
              Forall (entries_condition_holds r.1.1 r.1.2) [e_user_id_eq U])
           (e ← es; u ← join_user (e_user_id e) d; c ← join_calendar (e_calendar_id e) d;
            [(e, c, u)])
  = entry_snapshot d <$>
      filter (λ e, e_user_id e = U ∧ e_calendar_id e ∈ c_id <$> calendars d) es.
Proof.
  intros Hukey Hckey. induction es as [|e es IH]; intros Hu; [done|].
  rewrite bind_cons, filter_app, fmap_app, IH by (intros e' He'; apply Hu; by right).
  destruct (join_user_ref d (e_user_id e) Hukey) as (u & -> & Hou); [apply Hu; left|].
  destruct (decide (e_calendar_id e ∈ c_id <$> calendars d)) as [Hcal|Hcal].
  - destruct (join_calendar_ref d (e_calendar_id e) Hckey Hcal) as (c & -> & Hoc).
    simpl.
    assert (Hiff : Forall (entries_condition_holds e c) [e_user_id_eq U] ↔ e_user_id e = U).
    { rewrite Forall_cons, Forall_nil. simpl. tauto. }
    destruct (decide (e_user_id e = U)) as [Hl|Hl].
    + rewrite (filter_cons_True (λ e, e_user_id e = U ∧ _)) by done.
      rewrite filter_cons_True by (simpl; by apply Hiff).
      rewrite fmap_cons. simpl. f_equal. unfold entry_snapshot. by rewrite Hou, Hoc.
    + rewrite (filter_cons_False (λ e, e_user_id e = U ∧ _)) by tauto.
      rewrite filter_cons_False by (simpl; by rewrite Hiff). done.
  - unfold join_calendar at 1. rewrite (filter_no_key c_id _ _ Hcal). simpl.
    by rewrite filter_cons_False by tauto.
Qed.

(** X23: after the owner has deleted calendar [C], the entries of
    [C] are still stored but [ListEntries] without a year no longer
    lists them: it returns the snapshots of the user's entries whose
    calendar row existed before the deletion and is not [C]. *)
Theorem DeleteCalendar_then_ListEntries s ctx req w u C U :
  healthy w →
  users_key (w_db w) →
  calendars_key (w_db w) →
  entries_owner_ref (w_db w) →
  authenticated s ctx (w_db w) u →
  C ∈ calendars (w_db w) →
  c_id C = pb.DeleteCalendarRequest_CalendarId req →
  c_user_id C = u_id u →
  let w1 := (DeleteCalendar s ctx req w).2 in
  entries (w_db w1) = entries (w_db w) ∧
  ∃ es,
    ListEntries s (pb.MkListEntriesRequest U 0) w1 = (Ok (pb.MkListEntriesResponse es), w1) ∧
    es ≡ₚ entry_snapshot (w_db w) <$>
          filter (λ e, e_user_id e = U ∧
                       e_calendar_id e ∈ c_id <$> calendars (w_db w) ∧
                       e_calendar_id e ≠ c_id C)
                 (entries (w_db w)).
Proof.
  intros Hw Hukey Hckey Hu Hauth HC Hid Hown w1. subst w1.
  rewrite (healthy_world w Hw). destruct w as [d fs]. simpl in *. clear Hw fs.
  rewrite (DeleteCalendar_healthy _ _ _ _ _ Hauth). simpl. split; [done|].
  set (d1 := Database _ _ _ _ _ _).
  assert (Hcals : calendars d1 = filter (λ c, c_id c ≠ c_id C) (calendars d)).
  { simpl. apply filter_ext_elem_of. intros c Hcin. split.
    - intros Hnot Heq. apply Hnot. rewrite <- Hid, <- Hown.
      by rewrite (key_inj c_id _ C c Hckey HC Hcin Heq).
    - intros Hne [Heq _]. apply Hne. congruence. }
  assert (Hckey1 : calendars_key d1).
  { unfold calendars_key. rewrite Hcals. by apply NoDup_key_filter. }
  assert (Hin1 : ∀ cid, cid ∈ c_id <$> calendars d1 ↔
                        cid ∈ c_id <$> calendars d ∧ cid ≠ c_id C).
  { intros cid. rewrite Hcals, !list_elem_of_fmap. split.
    - intros (c & -> & Hcin). apply list_elem_of_filter in Hcin as [Hne Hcin]. eauto.
    - intros [(c & -> & Hcin) Hne]. exists c. split; [done|].
      by apply list_elem_of_filter. }
  unfold ListEntries. simpl. run_bind. unfold go_call. rewrite Query_healthy.
  unfold sql_list_entries. unfold defer. simpl. run_bind.
  erewrite (for_rows_append _ (λ row : entries_row * calendars_row * users_row,
     pb.MkEntry (e_id row.1.1)
                (Some (pb.MkUser (u_id row.2) (u_name row.2) (u_icon_url row.2)))
                (Some (pb.MkCalendar (c_id row.1.2) None (c_title row.1.2)
                                     (c_description row.1.2) 0 0))
                (e_day row.1.1) (e_title row.1.1) (e_comment row.1.1) (e_url row.1.1)
                (e_image_url row.1.1))) by (by intros acc [[re rc] ru]).
  simpl. eexists. split; [reflexivity|].
  rewrite merge_sort_Permutation.
  pose proof (list_entries_rows_joined d1 U (entries d) Hukey Hckey1
                (proj1 (Forall_forall _ _) Hu)) as Hrows.
  etrans; [apply reflexive_eq; exact Hrows|]. apply reflexive_eq.
  rewrite (filter_ext_elem_of _ (λ e, e_user_id e = U ∧
                                      e_calendar_id e ∈ c_id <$> calendars d ∧
                                      e_calendar_id e ≠ c_id C)).
  2:{ intros e He. by rewrite Hin1. }
  apply fmap_ext_elem_of. intros e He. apply list_elem_of_filter in He as [(_ & _ & Hne) _].
  unfold entry_snapshot, owner_of, calendar_of. do 2 f_equal.
  rewrite Hcals, list_filter_filter. f_equal. apply list_filter_iff.
  intros c. split; [tauto|]. intros Heq. split; [done|]. congruence.
Qed.

(** On the sample store once Bob has deleted calendar 3, in which
    Alice holds entry 4: Bob deletes calendar 2 as well, in which Alice
    holds entry 3; Alice's listing is then entry 2 alone. *)
Lemma DeleteCalendar_then_ListEntries_witness :
  let w0 := (DeleteCalendar Sample.service (Sample.bearer "bob-token")
               (pb.MkDeleteCalendarRequest 3) (World Sample.store [])).2 in
  let w1 := (DeleteCalendar Sample.service (Sample.bearer "bob-token")
               (pb.MkDeleteCalendarRequest 2) w0).2 in
  entries (w_db w1) = entries (w_db w0) ∧
  ∃ es,
    ListEntries Sample.service (pb.MkListEntriesRequest 1 0) w1
    = (Ok (pb.MkListEntriesResponse es), w1) ∧
    es ≡ₚ entry_snapshot (w_db w0) <$>
          filter (λ e, e_user_id e = 1 ∧
                       e_calendar_id e ∈ c_id <$> calendars (w_db w0) ∧
                       e_calendar_id e ≠ 2)
                 (entries (w_db w0)).
Proof.
  intros w0.
  apply (DeleteCalendar_then_ListEntries Sample.service (Sample.bearer "bob-token")
           (pb.MkDeleteCalendarRequest 2) w0 Sample.bob Sample.golang 1).
  - reflexivity.
  - unfold users_key. compute_done.
  - unfold calendars_key. compute_done.
  - unfold entries_owner_ref. compute_done.
  - exists {[ "authorization" := ["bob-token"] ]}, "bob-token", [],
           (MkAuthResult "github" "b1" "Bob" "bob.png").
    repeat split; vm_compute; reflexivity.
  - compute_done.
  - reflexivity.
  - reflexivity.
Defined.
